(** * Evaluation driver of the humor-detection classifier (eval.py)

    A shallow embedding of [eval.py]: the example processors that turn the
    rows of a delimited file into [InputExample]s, the dataset assembler
    [load_and_cache_examples], the batched evaluation loop [evaluate] with
    its running aggregates, and the selection of task variant and ambiguity
    function in [main].

    Python exceptions are values of [exception] carried by the error monad
    [result]; the file system is a finite view from paths to the rows the
    csv reader yields; the tokenizer, the feature converters, the
    classifier and the scikit-learn metrics are collaborators outside
    [eval.py] and are Section variables. *)

From Stdlib Require Import ZArith QArith DecimalNat DecimalString.
From stdpp Require Import base option list strings gmap.

Local Open Scope string_scope.
Local Open Scope list_scope.
Local Open Scope nat_scope.

(** ** Python preliminaries *)

Inductive exception :=
  | FileNotFoundError
  | IndexError
  | KeyError
  | ValueError
  | AssertionError
  | AxisError
  | ZeroDivisionError
  | RuntimeError.

#[global] Instance exception_eq_dec : EqDecision exception.
Proof. solve_decision. Defined.

Inductive result (A : Type) :=
  | Ok (a : A)
  | Err (e : exception).
Arguments Ok {A} a.
Arguments Err {A} e.

#[global] Instance result_ret : MRet result := λ A a, Ok a.
#[global] Instance result_bind : MBind result := λ A B f m,
  match m with
  | Ok a => f a
  | Err e => Err e
  end.

(** [l[i]] for a non-negative index [i]. *)
Definition getitem {A} (l : list A) (i : nat) : result A :=
  match l !! i with
  | Some x => Ok x
  | None => Err IndexError
  end.

(** [l[-1]]. *)
Definition getitem_last {A} (l : list A) : result A :=
  match last l with
  | Some x => Ok x
  | None => Err IndexError
  end.

(** [for x in xs: acc = body(acc, x)], stopping at the first exception. *)
Fixpoint for_each {A S} (body : S → A → result S) (xs : list A) (acc : S)
  : result S :=
  match xs with
  | [] => Ok acc
  | x :: xs' => acc' ← body acc x; for_each body xs' acc'
  end.

(** [enumerate(l)], here from an arbitrary first index. *)
Fixpoint enumerate_from {A} (k : nat) (l : list A) : list (nat * A) :=
  match l with
  | [] => []
  | x :: l' => (k, x) :: enumerate_from (S k) l'
  end.
Definition enumerate {A} (l : list A) : list (nat * A) := enumerate_from 0 l.

(** [str(i)] for a non-negative integer. *)
Definition str (i : nat) : string := NilEmpty.string_of_uint (Nat.to_uint i).

(** ["%s-%s" % (a, i)]. *)
Definition fmt_dash (a : string) (b : string) : string := a +:+ "-" +:+ b.

(** [sub in s] on strings. *)
Fixpoint contains (sub s : string) : bool :=
  String.prefix sub s ||
  match s with
  | EmptyString => false
  | String _ s' => contains sub s'
  end.

(** [s.endswith(c)] for a single character [c]. *)
Fixpoint endswith (s : string) (c : Ascii.ascii) : bool :=
  match s with
  | EmptyString => false
  | String c' EmptyString => bool_decide (c' = c)
  | String _ s' => endswith s' c
  end.

(** [os.path.join(a, b)] for a relative second component. *)
Definition path_join (a b : string) : string :=
  if bool_decide (a = "") || endswith a (Ascii.ascii_of_nat 47) then a +:+ b
  else a +:+ "/" +:+ b.

(** The file system as the reader sees it: the rows of cells that
    [csv.reader] yields for the file at a path, when the file exists. *)
Definition filesystem := string → option (list (list string)).

(** ** Examples and features *)

Record InputExample := mkInputExample {
  guid : string;
  text_a : string;
  text_b : option string;
  label : option string
}.

Record InputFeatures := mkInputFeatures {
  input_ids : list Z;
  input_mask : list Z;
  segment_ids : list Z;
  label_id : Z
}.

(** ** Processors *)

Module DataProcessor.
Definition _read_tsv (fs : filesystem) (input_file : string)
  : result (list (list string)) :=
  match fs input_file with
  | Some lines => Ok lines
  | None => Err FileNotFoundError
  end.
End DataProcessor.

(** The capability set every processor implements. *)
Record Processor := mkProcessor {
  get_train_examples : filesystem → string → result (list InputExample);
  get_dev_examples : filesystem → string → result (list InputExample);
  get_labels : list string
}.

Module DumbProcessorClean.
Definition _create_examples (lines : list (list string)) (set_type : string)
  : result (list InputExample) :=
  for_each (λ examples '(i, line),
      let guid := fmt_dash set_type (str i) in
      text_a ← getitem line 3;
      label ← getitem line 1;
      Ok (examples ++ [mkInputExample guid text_a None (Some label)]))
    (enumerate lines) [].

Definition get_train_examples (fs : filesystem) (data_dir : string) :=
  lines ← DataProcessor._read_tsv fs (path_join data_dir "train_clean.tsv");
  _create_examples lines "train".

Definition get_dev_examples (fs : filesystem) (data_dir : string) :=
  lines ← DataProcessor._read_tsv fs (path_join data_dir "dev_clean.tsv");
  _create_examples lines "dev".

Definition get_labels : list string := ["0"; "1"].

Definition new : Processor :=
  mkProcessor get_train_examples get_dev_examples get_labels.
End DumbProcessorClean.

Module DumbProcessor.
Definition _create_examples (lines : list (list string)) (set_type : string)
  : result (list InputExample) :=
  for_each (λ examples '(i, line),
      let guid := fmt_dash set_type (str i) in
      text_a ← getitem line 3;
      label ← getitem line 1;
      Ok (examples ++ [mkInputExample guid text_a None (Some label)]))
    (enumerate lines) [].

Definition get_train_examples (fs : filesystem) (data_dir : string) :=
  lines ← DataProcessor._read_tsv fs (path_join data_dir "train_wordnet_amb.tsv");
  _create_examples lines "train".

Definition get_dev_examples (fs : filesystem) (data_dir : string) :=
  lines ← DataProcessor._read_tsv fs (path_join data_dir "dev_wordnet_amb.tsv");
  _create_examples lines "dev".

Definition get_labels : list string := ["0"; "1"].

Definition new : Processor :=
  mkProcessor get_train_examples get_dev_examples get_labels.
End DumbProcessor.

Module Sst2Processor.
(** Unlike the three processors of the humor task, this one skips row 0. *)
Definition _create_examples (lines : list (list string)) (set_type : string)
  : result (list InputExample) :=
  for_each (λ examples '(i, line),
      if bool_decide (i = 0) then Ok examples else
      let guid := fmt_dash set_type (str i) in
      text_a ← getitem line 0;
      label ← getitem line 1;
      Ok (examples ++ [mkInputExample guid text_a None (Some label)]))
    (enumerate lines) [].
End Sst2Processor.

Module ColaProcessor.
Definition _create_examples (lines : list (list string)) (set_type : string)
  : result (list InputExample) :=
  for_each (λ examples '(i, line),
      let guid := fmt_dash set_type (str i) in
      text_a ← getitem line 3;
      label ← getitem line 1;
      Ok (examples ++ [mkInputExample guid text_a None (Some label)]))
    (enumerate lines) [].

Definition get_train_examples (fs : filesystem) (data_dir : string) :=
  lines ← DataProcessor._read_tsv fs (path_join data_dir "train.tsv");
  _create_examples lines "train".

Definition get_dev_examples (fs : filesystem) (data_dir : string) :=
  lines ← DataProcessor._read_tsv fs (path_join data_dir "dev.tsv");
  _create_examples lines "dev".

Definition get_labels : list string := ["0"; "1"].

Definition new : Processor :=
  mkProcessor get_train_examples get_dev_examples get_labels.
End ColaProcessor.

(** The table of [load_and_cache_examples]. *)
Definition processors : gmap string Processor :=
  {[ "old" := ColaProcessor.new;
     "new_clean" := DumbProcessorClean.new;
     "new" := DumbProcessor.new ]}.

(** ** Tensors and the assembled dataset *)

(** One entry of a tensor along its first dimension: a number for a 1-D
    tensor (labels, ambiguity scores), a row for a 2-D one. *)
Inductive cell :=
  | Scalar (z : Z)
  | Vector (v : list Z).

#[global] Instance cell_eq_dec : EqDecision cell.
Proof. solve_decision. Defined.

Abbreviation tensor := (list cell).

(** A Python integer that fits a 64-bit signed integer. *)
Definition int64_ok (z : Z) : bool := ((- 2 ^ 63 <=? z) && (z <? 2 ^ 63))%Z.

(** [torch.tensor(xs, dtype=torch.long)] for a list of integers; an
    integer that does not fit 64 bits is refused ("Overflow when unpacking
    long"). *)
Definition torch_tensor_1d (xs : list Z) : result tensor :=
  if forallb int64_ok xs then Ok (Scalar <$> xs) else Err RuntimeError.

(** The rows are stored one after the other: a row that has not the
    expected length is refused, then its entries are stored, and one that
    does not fit 64 bits is refused. *)
Fixpoint store_rows (width : nat) (rows : list (list Z)) : result tensor :=
  match rows with
  | [] => Ok []
  | row :: rows' =>
      if negb (Nat.eqb (length row) width) then Err ValueError
      else if negb (forallb int64_ok row) then Err RuntimeError
      else t ← store_rows width rows'; Ok (Vector row :: t)
  end.

(** [torch.tensor(rows, dtype=torch.long)] for a list of integer lists:
    the shape is read off the first row, then the rows are stored. *)
Definition torch_tensor_2d (rows : list (list Z)) : result tensor :=
  match rows with
  | [] => Ok []
  | r :: _ => store_rows (length r) rows
  end.

(** [TensorDataset] over a tuple of tensors: the constructor asserts that all tensors
    have the same first dimension. *)
Definition TensorDataset (tensors : list tensor) : result (list tensor) :=
  match tensors with
  | [] => Ok []
  | t0 :: _ =>
      if forallb (λ t, Nat.eqb (length t) (length t0)) tensors then Ok tensors
      else Err AssertionError
  end.

(** [len(dataset)], that is [tensors[0].size(0)]. *)
Definition dataset_len (dataset : list tensor) : result nat :=
  t0 ← getitem dataset 0; Ok (length t0).

(** Number of batches of a loader that keeps the last, shorter batch. *)
Definition num_batches (n b : nat) : nat := (n + b - 1) / b.

(** The rows [k*b .. k*b + b - 1] of a tensor. *)
Definition batch_slice {A} (b k : nat) (t : list A) : list A :=
  take b (drop (k * b) t).

(** [DataLoader(dataset, sampler=SequentialSampler(dataset), batch_size=b)]
    as the list of the batches it yields: indices are visited in order
    [0 .. len-1], every batch stacks the rows of [b] consecutive indices
    field by field. A batch size that is not positive is refused. *)
Definition DataLoader (dataset : list tensor) (batch_size : Z)
  : result (list (list tensor)) :=
  n ← dataset_len dataset;
  if bool_decide (batch_size ≤ 0)%Z then Err ValueError else
  let b := Z.to_nat batch_size in
  Ok ((λ k, batch_slice b k <$> dataset) <$> seq 0 (num_batches n b)).

(** ** Command-line arguments *)

Record Args := mkArgs {
  data_dir : string;
  bert_model : string;
  max_seq_length : Z;
  eval_batch_size : Z;
  old_load : bool;
  use_clean_data : bool;
  bert_base : bool;
  model_weights : string
}.

Definition set_eval_batch_size (args : Args) (b : Z) : Args :=
  mkArgs (data_dir args) (bert_model args) (max_seq_length args) b
         (old_load args) (use_clean_data args) (bert_base args)
         (model_weights args).

(** ** Objects bound to module-level names *)

Inductive pyobject :=
  | PyNone
  | PyBool (b : bool)
  | PyInt (z : Z)
  | PyFunction (name : string).

(** Truth value of an object, as [not] and [if] test it. *)
Definition truth (o : pyobject) : bool :=
  match o with
  | PyNone => false
  | PyBool b => b
  | PyInt z => negb (z =? 0)%Z
  | PyFunction _ => true
  end.

(** What the name [evaluate] denotes inside [load_and_cache_examples]:
    the function defined at module level. *)
Definition evaluate_name : pyobject := PyFunction "evaluate".

(** ** Collaborators outside eval.py *)

(** The feature records of the extended dataset, as lines 284-288 use them. *)
Record AmbiguityFeatures := mkAmbiguityFeatures {
  f_input_ids : list Z;
  f_input_mask : list Z;
  f_segment_ids : list Z;
  f_ambiguity : Z;
  f_label_id : Z
}.

(** Floating-point numbers with the operations the evaluator uses, the
    tokenizer, the feature converters of [utils], the dataset of [dataset]
    and the scikit-learn metrics. Nothing is assumed about them. *)
Class Collaborators := {
  float : Type;
  of_int : Z → float;
  float_add : float → float → float;
  float_div : float → float → float;
  float_lt : float → float → bool;
  tokenizer : Type;
  convert_examples_new :
    list InputExample → list string → Z → tokenizer → result (list InputFeatures);
  humor_dataset : Type;
  HumorDetectionDataset :
    filesystem → string → Z → string → string → bool → result humor_dataset;
  convert_dataset_to_features :
    humor_dataset → Z → tokenizer → result (list AmbiguityFeatures);
  f1_score : tensor → list nat → float;
  precision_score : tensor → list nat → float;
  recall_score : tensor → list nat → float
}.

(** A classifier: from the keyword bundle to the scalar
    [loss.mean().item()] and the logits, one row per input row. *)
Abbreviation classifier := (gmap string tensor → float * list (list float)).

Section Evaluation.
Context `{Collaborators}.

(** [d[key]] on a dictionary. *)
Definition dict_getitem {V} (d : gmap string V) (key : string) : result V :=
  match d !! key with
  | Some v => Ok v
  | None => Err KeyError
  end.

Definition legacy_tensors (features : list InputFeatures) : result (list tensor) :=
  input_ids ← torch_tensor_2d (input_ids <$> features);
  input_masks ← torch_tensor_2d (input_mask <$> features);
  token_type_ids ← torch_tensor_2d (segment_ids <$> features);
  labels ← torch_tensor_1d (label_id <$> features);
  TensorDataset [input_ids; input_masks; token_type_ids; labels].

Definition extended_tensors (features : list AmbiguityFeatures) : result (list tensor) :=
  input_ids ← torch_tensor_2d (f_input_ids <$> features);
  input_masks ← torch_tensor_2d (f_input_mask <$> features);
  token_type_ids ← torch_tensor_2d (f_segment_ids <$> features);
  ambiguity_scores ← torch_tensor_1d (f_ambiguity <$> features);
  labels ← torch_tensor_1d (f_label_id <$> features);
  TensorDataset [input_ids; input_masks; token_type_ids; labels; ambiguity_scores].

Definition load_and_cache_examples (fs : filesystem) (args : Args)
    (tok : tokenizer) (ambiguity_fn task_name : string) : result (list tensor) :=
  let task := "test" in
  if old_load args then
    processor ← dict_getitem processors task_name;
    let label_list := get_labels processor in
    examples ←
      (if negb (truth evaluate_name)
       then get_train_examples processor fs (data_dir args)
       else get_dev_examples processor fs (data_dir args));
    features ← convert_examples_new examples label_list (max_seq_length args) tok;
    legacy_tensors features
  else
    dataset ← HumorDetectionDataset fs (data_dir args) (max_seq_length args)
                task ambiguity_fn (use_clean_data args);
    features ← convert_dataset_to_features dataset (max_seq_length args) tok;
    extended_tensors features.

(** ** Metrics *)

(** Index of the first maximum of the remaining entries, given the best
    entry so far and its index. *)
Fixpoint argmax_from (best : float) (besti i : nat) (row : list float) : nat :=
  match row with
  | [] => besti
  | x :: row' =>
      if float_lt best x then argmax_from x i (S i) row'
      else argmax_from best besti (S i) row'
  end.

(** [np.argmax] of one row; an empty row is refused. *)
Definition argmax (row : list float) : result nat :=
  match row with
  | [] => Err ValueError
  | x :: row' => Ok (argmax_from x 0 1 row')
  end.

(** [np.argmax(out, axis=1)] for a 2-D array given by its rows. *)
Fixpoint np_argmax (out : list (list float)) : result (list nat) :=
  match out with
  | [] => Ok []
  | row :: out' => i ← argmax row; rest ← np_argmax out'; Ok (i :: rest)
  end.

(** [outputs == labels] for the 1-D array of predicted classes and a 1-D
    array of labels: entry by entry when the lengths agree; a side of
    length one is compared with every entry of the other side
    (broadcasting); shapes that do not broadcast are refused with a
    ValueError, as NumPy does from version 1.25 on (earlier versions
    answered a single False with a deprecation warning). *)
Definition np_equal (outputs : list nat) (labels : tensor) : result (list bool) :=
  if bool_decide (length outputs = length labels)
  then Ok (zip_with (λ o l, bool_decide (l = Scalar (Z.of_nat o))) outputs labels)
  else
    match outputs, labels with
    | [o], _ => Ok ((λ l, bool_decide (l = Scalar (Z.of_nat o))) <$> labels)
    | _, [l] => Ok ((λ o, bool_decide (l = Scalar (Z.of_nat o))) <$> outputs)
    | _, _ => Err ValueError
    end.

(** [np.sum] of a boolean array. *)
Definition np_sum (bs : list bool) : Z :=
  Z.of_nat (length (filter (λ b, b = true) bs)).

Definition accuracy (out : list (list float)) (labels : tensor) : result Z :=
  outputs ← np_argmax out;
  hits ← np_equal outputs labels;
  Ok (np_sum hits).

(** A buffer that is still [None] has no axis 1. *)
Definition array_of {A} (buffer : option A) : result A :=
  match buffer with
  | Some a => Ok a
  | None => Err AxisError
  end.

Definition get_metrics (logits : option (list (list float))) (labels : option tensor)
  : result (float * float * float) :=
  out ← array_of logits;
  outputs ← np_argmax out;
  labels' ← array_of labels;
  let f1 := f1_score labels' outputs in
  let prec := precision_score labels' outputs in
  let recall := recall_score labels' outputs in
  Ok (f1, prec, recall).

(** ** The evaluation loop *)

Record Aggregates := mkAggregates {
  eval_loss : float;
  eval_accuracy : Z;
  nb_eval_steps : Z;
  nb_eval_examples : Z;
  full_logits : option (list (list float));
  full_labels : option tensor
}.

Definition init_aggregates : Aggregates :=
  mkAggregates (of_int 0) 0 0 0 None None.

(** Lines 330-336: the keyword bundle of one batch. *)
Definition build_inputs (args : Args) (batch : list tensor)
  : result (gmap string tensor) :=
  b0 ← getitem batch 0;
  b2 ← getitem batch 2;
  b1 ← getitem batch 1;
  b3 ← getitem batch 3;
  let inputs : gmap string tensor :=
    <["labels" := b3]> (<["attention_mask" := b1]>
      (<["token_type_ids" := b2]> (<["input_ids" := b0]> ∅))) in
  if negb (contains "baseline_" (data_dir args)) then
    b4 ← getitem batch 4;
    Ok (<["ambiguity_scores" := b4]> inputs)
  else Ok inputs.

(** [np.append(buffer, rows, axis=0)], or [rows] while the buffer is [None]. *)
Definition append_rows {A} (buffer : option (list A)) (rows : list A) : option (list A) :=
  match buffer with
  | None => Some rows
  | Some acc => Some (acc ++ rows)
  end.

(** Lines 328-362: the body of the loop. *)
Definition eval_step (args : Args) (model : classifier)
    (st : Aggregates) (batch : list tensor) : result Aggregates :=
  inputs ← build_inputs args batch;
  let '(tmp_eval_loss, logits) := model inputs in
  label_ids ← dict_getitem inputs "labels";
  let full_labels' := append_rows (full_labels st) label_ids in
  let full_logits' := append_rows (full_logits st) logits in
  tmp_eval_accuracy ← accuracy logits label_ids;
  ids ← dict_getitem inputs "input_ids";
  Ok (mkAggregates
        (float_add (eval_loss st) tmp_eval_loss)
        (eval_accuracy st + tmp_eval_accuracy)
        (nb_eval_steps st + 1)
        (nb_eval_examples st + Z.of_nat (length ids))
        full_logits' full_labels').

(** [x / n] for an integer divisor. *)
Definition truediv (x : float) (n : Z) : result float :=
  if bool_decide (n = 0%Z) then Err ZeroDivisionError
  else Ok (float_div x (of_int n)).

(** Lines 318-362: the loader and the loop over its batches. *)
Definition eval_loop (args : Args) (model : classifier) (eval_data : list tensor)
  : result Aggregates :=
  eval_dataloader ← DataLoader eval_data (eval_batch_size args);
  for_each (eval_step args model) eval_dataloader init_aggregates.

Definition evaluate (fs : filesystem) (args : Args) (model : classifier)
    (tok : tokenizer) (ambiguity_fn task_name : string)
  : result (float * float * float) :=
  eval_data ← load_and_cache_examples fs args tok ambiguity_fn task_name;
  st ← eval_loop args model eval_data;
  '(eval_f1, eval_precision, eval_recall) ←
    get_metrics (full_logits st) (full_labels st);
  out ← array_of (full_logits st);
  labels ← array_of (full_labels st);
  full_accuracy ← accuracy out labels;
  eval_loss' ← truediv (eval_loss st) (nb_eval_steps st);
  eval_accuracy' ← truediv (of_int (eval_accuracy st)) (nb_eval_examples st);
  Ok (eval_loss', eval_accuracy', eval_f1).

End Evaluation.

(** ** Selection of the task variant in [main] *)

(** Lines 443-449. *)
Definition select_ambiguity_fn (args : Args) : string :=
  let ambiguity_fn := "none" in
  if contains "_csi_" (model_weights args) then "csi"
  else if contains "_wn_" (model_weights args) then "wn"
  else if contains "_tf-idf_" (model_weights args) then "tf-idf"
  else ambiguity_fn.

(** Lines 450-454. *)
Definition select_task_name (args : Args) : string :=
  let task_name := "old" in
  if contains "new_clean" (model_weights args) then "new_clean"
  else if contains "new" (model_weights args) then "new"
  else task_name.

(** ** The NLI-style processor *)

Module MnliProcessor.
Definition _create_examples (lines : list (list string)) (set_type : string)
  : result (list InputExample) :=
  for_each (λ examples '(i, line),
      if bool_decide (i = 0) then Ok examples else
      id ← getitem line 0;
      let guid := fmt_dash set_type id in
      text_a ← getitem line 8;
      text_b ← getitem line 9;
      label ← getitem_last line;
      Ok (examples ++ [mkInputExample guid text_a (Some text_b) (Some label)]))
    (enumerate lines) [].

Definition get_train_examples (fs : filesystem) (data_dir : string) :=
  lines ← DataProcessor._read_tsv fs (path_join data_dir "train.tsv");
  _create_examples lines "train".

Definition get_dev_examples (fs : filesystem) (data_dir : string) :=
  lines ← DataProcessor._read_tsv fs (path_join data_dir "dev_matched.tsv");
  _create_examples lines "dev_matched".

Definition get_labels : list string := ["contradiction"; "entailment"; "neutral"].

Definition new : Processor :=
  mkProcessor get_train_examples get_dev_examples get_labels.
End MnliProcessor.

(** ** The command surface *)

(** [s.split(sep)] for a separator of one character: the parts between the
    separators, at least one. *)
Fixpoint split_on (sep : Ascii.ascii) (s : string) : list string :=
  match s with
  | EmptyString => [EmptyString]
  | String c s' =>
      if Ascii.eqb c sep then EmptyString :: split_on sep s'
      else match split_on sep s' with
           | part :: parts => String c part :: parts
           | [] => [String c EmptyString]
           end
  end.

(** The comma. *)
Definition comma : Ascii.ascii := Ascii.ascii_of_nat 44.

(** The parsed command line: the arguments the evaluator reads, and the
    lowercase flag that only the tokenizer sees. *)
Record CommandLine := mkCommandLine {
  cl_args : Args;
  do_lower_case : bool
}.

(** The pretrained tokenizer and the classifier modules with their weights:
    construction and loading can fail, nothing else is assumed. *)
Class Torch `{Collaborators} := {
  module : Type;
  state_dict : Type;
  BertTokenizer_from_pretrained : string → bool → result tokenizer;
  BertForSequenceClassification_from_pretrained : string → Z → result module;
  HumorDetectionModel : Z → bool → result module;
  torch_load : filesystem → string → result state_dict;
  load_state_dict : module → state_dict → result module;
  forward : module → classifier
}.

Section Main.
Context `{Torch}.

(** What [main] prints for a weight file. *)
Inductive line :=
  | EvaluatingModel (weights_path : string)
  | LossLine (eval_loss : float)
  | AccuracyLine (eval_accuracy : float)
  | F1Line (eval_f1 : float).

(** A computation that prints: from the lines printed so far to the lines
    printed after it, with its result or the exception that ended it. *)
Definition io (A : Type) : Type := list line → list line * result A.

Definition io_ret {A} (a : A) : io A := λ out, (out, Ok a).

Definition io_bind {A B} (m : io A) (f : A → io B) : io B :=
  λ out,
    match m out with
    | (out', Ok a) => f a out'
    | (out', Err e) => (out', Err e)
    end.

Definition print (l : line) : io unit := λ out, (out ++ [l], Ok tt).

Definition lift {A} (r : result A) : io A := λ out, (out, r).

Fixpoint io_for_each {A S} (body : S → A → io S) (xs : list A) (acc : S) : io S :=
  match xs with
  | [] => io_ret acc
  | x :: xs' => io_bind (body acc x) (io_for_each body xs')
  end.

(** Lines 460-467: one weight file. *)
Definition main_step (fs : filesystem) (args : Args) (tok : tokenizer)
    (ambiguity_fn task_name : string) (model : module) (weights_path : string)
  : io module :=
  io_bind (lift (torch_load fs weights_path)) (λ sd,
  io_bind (lift (load_state_dict model sd)) (λ model',
  io_bind (print (EvaluatingModel weights_path)) (λ _,
  io_bind (lift (evaluate fs args (forward model') tok ambiguity_fn task_name))
    (λ '(eval_loss, eval_accuracy, eval_f1),
  io_bind (print (LossLine eval_loss)) (λ _,
  io_bind (print (AccuracyLine eval_accuracy)) (λ _,
  io_bind (print (F1Line eval_f1)) (λ _,
  io_ret model'))))))).

(** Lines 442-467. *)
Definition main (fs : filesystem) (cl : CommandLine) : io unit :=
  let args := cl_args cl in
  io_bind (lift (BertTokenizer_from_pretrained (bert_model args) (do_lower_case cl)))
    (λ tok,
  let ambiguity_fn := select_ambiguity_fn args in
  let task_name := select_task_name args in
  io_bind (lift (if bert_base args
                 then BertForSequenceClassification_from_pretrained (bert_model args) 2
                 else
                   let use_ambiguity := negb (String.eqb ambiguity_fn "none") in
                   HumorDetectionModel 768 use_ambiguity))
    (λ model,
  io_bind (io_for_each (main_step fs args tok ambiguity_fn task_name)
             (split_on comma (model_weights args)) model)
    (λ _, io_ret tt))).

End Main.


(** * Vocabulary of the properties *)

Section Vocabulary.
Context `{Collaborators}.

(** The loop body shared, text for text, by the three processors. *)
Definition create_body (set_type : string)
  : list InputExample → nat * list string → result (list InputExample) :=
  λ examples '(i, line),
    let guid := fmt_dash set_type (str i) in
    text_a ← getitem line 3;
    label ← getitem line 1;
    Ok (examples ++ [mkInputExample guid text_a None (Some label)]).

(** The example the claim expects for row [i]. *)
Definition example_of_row (set_type : string) (i : nat) (line : list string)
  : InputExample :=
  mkInputExample (fmt_dash set_type (str i)) (line !!! 3) None (Some (line !!! 1)).

(** The three [_create_examples] of the humor task. *)
Definition humor_creators
  : list (list (list string) → string → result (list InputExample)) :=
  [ColaProcessor._create_examples;
   DumbProcessorClean._create_examples;
   DumbProcessor._create_examples].

(** The batch has the fields that [build_inputs] reads. *)
Definition batch_ok (args : Args) (batch : list tensor) : Prop :=
  if contains "baseline_" (data_dir args) then 4 ≤ length batch
  else 5 ≤ length batch.

(** The keyword bundle of a batch that has those fields. *)
Definition inputs_of (args : Args) (batch : list tensor) : gmap string tensor :=
  let inputs : gmap string tensor :=
    <["labels" := batch !!! 3]> (<["attention_mask" := batch !!! 1]>
      (<["token_type_ids" := batch !!! 2]> (<["input_ids" := batch !!! 0]> ∅))) in
  if negb (contains "baseline_" (data_dir args))
  then <["ambiguity_scores" := batch !!! 4]> inputs
  else inputs.

(** Contract of a classifier: one row of logits per input row, for at
    least one class. *)
Definition model_ok (model : classifier) : Prop :=
  ∀ inputs labels, inputs !! "labels" = Some labels →
    length (model inputs).2 = length labels ∧
    Forall (λ row, row ≠ []) (model inputs).2.

(** A classifier scores every row on its own: the logits of a slice of the
    rows are the slice of the logits. *)
Definition batch_invariant (model : classifier) : Prop :=
  ∀ (inputs : gmap string tensor) b k,
    (model (batch_slice b k <$> inputs)).2 = batch_slice b k (model inputs).2.

Definition argmax_total (row : list float) : nat :=
  match row with
  | [] => 0
  | x :: row' => argmax_from x 0 1 row'
  end.

(** Number of rows whose first largest logit sits at the gold label. *)
Definition count_correct (logits : list (list float)) (labels : tensor) : Z :=
  Z.of_nat (length (filter (λ p, p.2 = Scalar (Z.of_nat (argmax_total p.1)))
                           (zip logits labels))).

Definition batch_loss (args : Args) (model : classifier) (batch : list tensor) : float :=
  (model (inputs_of args batch)).1.

Definition batch_logits (args : Args) (model : classifier) (batch : list tensor)
  : list (list float) :=
  (model (inputs_of args batch)).2.

(** A buffer after the given chunks were appended to it in turn. *)
Definition buffer_of {A} (chunks : list (list A)) : option (list A) :=
  match chunks with
  | [] => None
  | _ => Some (concat chunks)
  end.

(** The content of a buffer, nothing while it is [None]. *)
Definition rows_of {A} (buffer : option (list A)) : list A := default [] buffer.

(** The running aggregates after the given batches. *)
Definition state_after (args : Args) (model : classifier)
    (batches : list (list tensor)) : Aggregates :=
  mkAggregates
    (fold_left float_add (batch_loss args model <$> batches) (of_int 0))
    (count_correct (concat (batch_logits args model <$> batches))
                   (concat ((λ batch, batch !!! 3) <$> batches)))
    (Z.of_nat (length batches))
    (Z.of_nat (length (concat ((λ batch, batch !!! 0) <$> batches))))
    (buffer_of (batch_logits args model <$> batches))
    (buffer_of ((λ batch, batch !!! 3) <$> batches)).

(** The batches a loader yields for [n] rows in batches of [b]. *)
Definition batches_of (dataset : list tensor) (b n : nat) : list (list tensor) :=
  (λ k, batch_slice b k <$> dataset) <$> seq 0 (num_batches n b).

(** The accuracy a run returned, if it returned. *)
Definition returned_accuracy (r : result (float * float * float)) : option float :=
  match r with
  | Ok (_, acc, _) => Some acc
  | Err _ => None
  end.

(** [fields] tensors of [n] rows each. *)
Definition dataset_shape (dataset : list tensor) (fields n : nat) : Prop :=
  length dataset = fields ∧ Forall (λ t : tensor, length t = n) dataset.

(** The file names the three processors read for the dev split. *)
Definition dev_files : list string :=
  ["dev.tsv"; "dev_clean.tsv"; "dev_wordnet_amb.tsv"].

End Vocabulary.

(** * Vocabulary of the further properties *)

(** The three processors of the humor task with the file names of their
    train and dev splits. *)
Definition humor_files : list (Processor * string * string) :=
  [(ColaProcessor.new, "train.tsv", "dev.tsv");
   (DumbProcessorClean.new, "train_clean.tsv", "dev_clean.tsv");
   (DumbProcessor.new, "train_wordnet_amb.tsv", "dev_wordnet_amb.tsv")].

(** The example the SST-2 processor makes of row [i]. *)
Definition sst2_example (set_type : string) (i : nat) (row : list string)
  : InputExample :=
  mkInputExample (fmt_dash set_type (str i)) (row !!! 0) None (Some (row !!! 1)).

(** The example the NLI-style processor makes of a row. *)
Definition mnli_example (set_type : string) (row : list string) : InputExample :=
  mkInputExample (fmt_dash set_type (row !!! 0)) (row !!! 8) (Some (row !!! 9))
                 (Some (default "" (last row))).


(** All features have the same length in one of their fields. *)
Definition same_width {A} (field : A → list Z) (features : list A) : Prop :=
  ∀ f g, f ∈ features → g ∈ features → length (field f) = length (field g).

(** The integers of a 64-bit signed tensor. *)
Definition int64_range (z : Z) : Prop :=
  (-9223372036854775808 ≤ z < 9223372036854775808)%Z.

(** Every number of the features fits a 64-bit signed tensor. *)
Definition features_in_range (features : list InputFeatures) : Prop :=
  Forall (Forall int64_range) (input_ids <$> features) ∧
  Forall (Forall int64_range) (input_mask <$> features) ∧
  Forall (Forall int64_range) (segment_ids <$> features) ∧
  Forall int64_range (label_id <$> features).

(** The features can be stacked field by field. *)
Definition rectangular (features : list InputFeatures) : Prop :=
  same_width input_ids features ∧ same_width input_mask features ∧
  same_width segment_ids features.

(** The task names that [load_and_cache_examples] knows. *)
Definition task_names : list string := ["old"; "new_clean"; "new"].


Section FurtherVocabulary.
Context `{Collaborators}.

(** The comparison of the floating-point numbers is a strict order in
    which incomparable numbers are interchangeable (no NaN among them). *)
Definition float_lt_strict_order : Prop :=
  (∀ x, float_lt x x = false) ∧
  (∀ x y z, float_lt x y = true → float_lt y z = true → float_lt x z = true) ∧
  (∀ x y z, float_lt x z = true → float_lt x y = true ∨ float_lt y z = true).

(** The F1 a run returned, if it returned. *)
Definition returned_f1 (r : result (float * float * float)) : option float :=
  match r with
  | Ok (_, _, f1) => Some f1
  | Err _ => None
  end.

End FurtherVocabulary.


Section MainVocabulary.
Context `{Torch}.

(** The weight files that the printed lines announce, in order. *)
Definition announced (out : list line) : list string :=
  omap (λ l, match l with
             | EvaluatingModel weights_path => Some weights_path
             | _ => None
             end) out.

End MainVocabulary.


(** * A concrete instance *)

(** Rationals for the floating-point numbers, a tokenizer that maps every
    character to its code, a converter in the manner of the feature
    converter (classification token, tokens cut to the length, separator,
    padding with 0), and the two-class metrics. The classifier of the
    instance always prefers class 1 and reports the number of rows of the
    batch as its loss. *)
Module Test.

Definition pad (n : nat) (l : list Z) : list Z := l ++ replicate (n - length l) 0%Z.

Definition label_index (label_list : list string) (lab : string) : result nat :=
  match list_find (λ l, l = lab) label_list with
  | Some (i, _) => Ok i
  | None => Err KeyError
  end.

Definition features_of_text (max_seq_length : Z) (tok : string → list Z)
    (text : string) : list Z * list Z * list Z :=
  let n := Z.to_nat max_seq_length in
  let ids := 101%Z :: take (n - 2) (tok text) ++ [102%Z] in
  (pad n ids, pad n (replicate (length ids) 1%Z), replicate n 0%Z).

Definition convert_examples_new (examples : list InputExample)
    (label_list : list string) (max_seq_length : Z) (tok : string → list Z)
  : result (list InputFeatures) :=
  mapM (λ ex,
      lab ← from_option Ok (Err KeyError) (label ex);
      i ← label_index label_list lab;
      let '(ids, mask, segments) := features_of_text max_seq_length tok (text_a ex) in
      Ok (mkInputFeatures ids mask segments (Z.of_nat i)))
    examples.

Definition HumorDetectionDataset (fs : filesystem) (data_dir : string)
    (max_seq_length : Z) (task ambiguity_fn : string) (use_clean_data : bool)
  : result (list (list string)) :=
  DataProcessor._read_tsv fs (path_join data_dir (task +:+ ".tsv")).

Definition convert_dataset_to_features (dataset : list (list string))
    (max_seq_length : Z) (tok : string → list Z)
  : result (list AmbiguityFeatures) :=
  mapM (λ row,
      text ← getitem row 3;
      lab ← getitem row 1;
      amb ← getitem row 2;
      i ← label_index ["0"; "1"] lab;
      let '(ids, mask, segments) := features_of_text max_seq_length tok text in
      Ok (mkAmbiguityFeatures ids mask segments
            (Z.of_nat (String.length amb)) (Z.of_nat i)))
    dataset.

Definition count_pairs (gold pred : bool) (labels : tensor) (outputs : list nat) : Z :=
  Z.of_nat (length (filter
    (λ p, bool_decide (p.1 = Scalar 1) = gold ∧ bool_decide (p.2 = 1) = pred)
    (zip labels outputs))).

Definition ratio (num den : Z) : Q :=
  if bool_decide (den = 0%Z) then inject_Z 0 else Qdiv (inject_Z num) (inject_Z den).

Definition f1_score (labels : tensor) (outputs : list nat) : Q :=
  let tp := count_pairs true true labels outputs in
  let fp := count_pairs false true labels outputs in
  let fn := count_pairs true false labels outputs in
  ratio (2 * tp) (2 * tp + fp + fn).

Definition precision_score (labels : tensor) (outputs : list nat) : Q :=
  let tp := count_pairs true true labels outputs in
  let fp := count_pairs false true labels outputs in
  ratio tp (tp + fp).

Definition recall_score (labels : tensor) (outputs : list nat) : Q :=
  let tp := count_pairs true true labels outputs in
  let fn := count_pairs true false labels outputs in
  ratio tp (tp + fn).

Definition collaborators : Collaborators :=
  Build_Collaborators
    Q inject_Z Qplus Qdiv (λ x y, negb (Qle_bool y x))
    (string → list Z) convert_examples_new
    (list (list string)) HumorDetectionDataset convert_dataset_to_features
    f1_score precision_score recall_score.

#[local] Existing Instance collaborators.

Definition tok : string → list Z :=
  λ s, (λ c, Z.of_nat (Ascii.nat_of_ascii c)) <$> String.list_ascii_of_string s.

Definition model : classifier :=
  λ inputs,
    let labels := default [] (inputs !! "labels") in
    (inject_Z (Z.of_nat (length labels)),
     (λ _, [inject_Z 0; inject_Z 1]) <$> labels).

Definition dev_rows : list (list string) :=
  [["r0"; "1"; "xx"; "a pun"];
   ["r1"; "0"; "x"; "a fact"];
   ["r2"; "1"; "xxx"; "a joke"; "extra"]].

Definition fs : filesystem :=
  λ path,
    if bool_decide (path = "data/baseline_old/dev.tsv") then Some dev_rows
    else if bool_decide (path = "data/amb/dev.tsv") then Some dev_rows
    else if bool_decide (path = "data/amb/test.tsv") then Some dev_rows
    else if bool_decide (path = "data/empty/test.tsv") then Some []
    else None.

Definition args_baseline : Args :=
  mkArgs "data/baseline_old" "bert-base-uncased" 8 2 true false true
         "models/old_seed1.pt".

Definition args_legacy : Args :=
  mkArgs "data/amb" "bert-base-uncased" 8 2 true false false
         "models/old_wn_seed1.pt".

Definition args_extended : Args :=
  mkArgs "data/amb" "bert-base-uncased" 8 2 false false false
         "models/new_clean_wn_seed1.pt".

Definition args_empty : Args :=
  mkArgs "data/empty" "bert-base-uncased" 8 2 false false false
         "models/new_wn_seed1.pt".

Definition dataset_of (args : Args) : list tensor :=
  match load_and_cache_examples fs args tok "wn" "old" with
  | Ok dataset => dataset
  | Err _ => []
  end.

End Test.

(** * A concrete command line *)

(** Weight files that exist or not, a tokenizer and classifier modules that
    are those of the instance above, and a loader of weights that fails on
    a missing file. *)
Module TestMain.

#[local] Existing Instance Test.collaborators.

Definition fs : filesystem :=
  λ path,
    if bool_decide (path = "m/a_wn_1.pt") then Some []
    else if bool_decide (path = "m/b_csi_2.pt") then Some []
    else Test.fs path.

Definition torch : Torch :=
  Build_Torch Test.collaborators
    classifier unit
    (λ _ _, Ok Test.tok)
    (λ _ _, Ok Test.model)
    (λ _ _, Ok Test.model)
    (λ fs path, match fs path with
                | Some _ => Ok tt
                | None => Err FileNotFoundError
                end)
    (λ model _, Ok model)
    (λ model, model).

Definition command_line (weights : string) : CommandLine :=
  mkCommandLine
    (mkArgs "data/amb" "bert-base-uncased" 8 2 false false false weights) true.

Definition features : list AmbiguityFeatures :=
  [mkAmbiguityFeatures [101; 7; 102]%Z [1; 1; 1]%Z [0; 0; 0]%Z 2 1;
   mkAmbiguityFeatures [101; 9; 102]%Z [1; 1; 1]%Z [0; 0; 0]%Z 5 0;
   mkAmbiguityFeatures [101; 4; 102]%Z [1; 1; 1]%Z [0; 0; 0]%Z 3 1].

Definition dataset : list tensor :=
  match extended_tensors features with
  | Ok dataset => dataset
  | Err _ => []
  end.

End TestMain.


(** * Properties *)

(** ** Processors of the humor task *)

Lemma getitem_lt {A} `{Inhabited A} (l : list A) (i : nat) :
  i < length l → getitem l i = Ok (l !!! i).
Proof.
  intros Hi. unfold getitem.
  destruct (lookup_lt_is_Some_2 l i Hi) as [x Hx].
  rewrite Hx. by rewrite (list_lookup_total_correct l i x Hx).
Qed.

Lemma getitem_ge {A} (l : list A) (i : nat) :
  length l ≤ i → getitem l i = Err IndexError.
Proof. intros Hi. unfold getitem. by rewrite lookup_ge_None_2. Qed.

Lemma create_body_ok set_type examples i line :
  4 ≤ length line →
  create_body set_type examples (i, line)
  = Ok (examples ++ [example_of_row set_type i line]).
Proof.
  intros Hlen. unfold create_body.
  rewrite (getitem_lt line 3); [|lia].
  rewrite (getitem_lt line 1); [|lia]. reflexivity.
Qed.

Lemma create_body_short set_type examples i line :
  length line < 4 → create_body set_type examples (i, line) = Err IndexError.
Proof.
  intros Hlen. unfold create_body. rewrite (getitem_ge line 3); [done|lia].
Qed.

Lemma create_loop_ok set_type lines : ∀ k acc,
  Forall (λ line, 4 ≤ length line) lines →
  for_each (create_body set_type) (enumerate_from k lines) acc
  = Ok (acc ++ imap (λ i, example_of_row set_type (k + i)) lines).
Proof.
  induction lines as [|line lines IH]; intros k acc Hall; cbn [enumerate_from for_each].
  - by rewrite app_nil_r.
  - apply Forall_cons in Hall as [Hline Hall].
    rewrite create_body_ok by done. cbn [mbind result_bind].
    rewrite IH by done. rewrite <- app_assoc. cbn.
    rewrite Nat.add_0_r. do 3 f_equal.
    apply imap_ext. intros i x _. cbn. f_equal. lia.
Qed.

Lemma create_loop_short set_type lines : ∀ k acc,
  Exists (λ line, length line < 4) lines →
  for_each (create_body set_type) (enumerate_from k lines) acc = Err IndexError.
Proof.
  induction lines as [|line lines IH]; intros k acc Hex.
  - by apply Exists_nil in Hex.
  - cbn [enumerate_from for_each].
    destruct (decide (length line < 4)) as [Hshort|Hlong].
    + by rewrite create_body_short.
    + rewrite create_body_ok by lia. cbn [mbind result_bind].
      apply IH. apply Exists_cons in Hex as [?|?]; [lia | done].
Qed.

Lemma humor_creators_body create :
  create ∈ humor_creators →
  ∀ lines set_type,
    create lines set_type = for_each (create_body set_type) (enumerate lines) [].
Proof.
  unfold humor_creators. intros Hin lines set_type.
  repeat (apply elem_of_cons in Hin as [->|Hin]; [reflexivity|]).
  by apply elem_of_nil in Hin.
Qed.

(** C4. Processors "old", "new_clean" and "new": on rows that all have the
    four columns the layout needs, [_create_examples] returns one example
    per row, in row order and starting with row 0 (no header is skipped);
    the example of row [i] has as id the split, a dash and the decimal
    numeral of [i], its text is the cell of column 3, its label the cell of
    column 1; the label vocabulary of each of the three processors is
    exactly ["0"; "1"]. *)
Theorem create_examples_row_order (lines : list (list string)) (set_type : string) :
  Forall (λ line, 4 ≤ length line) lines →
  Forall (λ create,
      ∃ examples,
        create lines set_type = Ok examples ∧
        length examples = length lines ∧
        ∀ i line, lines !! i = Some line →
          ∃ text lab,
            line !! 3 = Some text ∧ line !! 1 = Some lab ∧
            examples !! i
            = Some (mkInputExample (set_type +:+ "-" +:+ str i) text None (Some lab)))
    humor_creators
  ∧ Forall (λ p, get_labels p = ["0"; "1"])
      [ColaProcessor.new; DumbProcessorClean.new; DumbProcessor.new].
Proof.
  intros Hcols. split; [|by repeat constructor].
  apply Forall_forall. intros create Hin.
  exists (imap (example_of_row set_type) lines).
  rewrite (humor_creators_body create Hin). unfold enumerate.
  rewrite create_loop_ok by done. split; [reflexivity|].
  split; [by rewrite length_imap|].
  intros i line Hi.
  assert (4 ≤ length line) as Hlen.
  { eapply Forall_lookup_1 in Hcols; eauto. }
  destruct (lookup_lt_is_Some_2 line 3 ltac:(lia)) as [text Htext].
  destruct (lookup_lt_is_Some_2 line 1 ltac:(lia)) as [lab Hlab].
  exists text, lab. split; [done|]. split; [done|].
  rewrite list_lookup_imap, Hi. cbn. unfold example_of_row, fmt_dash.
  by rewrite (list_lookup_total_correct _ _ _ Htext),
             (list_lookup_total_correct _ _ _ Hlab).
Qed.

Lemma create_examples_row_order_witness :
  Forall (λ create,
      create [["a";"1";"c";"joke"]; ["x";"0";"z";"news";"more"]] "dev"
      = Ok [mkInputExample "dev-0" "joke" None (Some "1");
            mkInputExample "dev-1" "news" None (Some "0")])
    humor_creators
  ∧ Forall (λ p, get_labels p = ["0"; "1"])
      [ColaProcessor.new; DumbProcessorClean.new; DumbProcessor.new].
Proof.
  destruct (create_examples_row_order
              [["a";"1";"c";"joke"]; ["x";"0";"z";"news";"more"]] "dev")
    as [Hcreate Hlabels]; [repeat constructor|].
  split; [|exact Hlabels].
  eapply Forall_impl; [exact Hcreate|].
  intros create (examples & -> & Hlen & Hrow). f_equal.
  destruct examples as [|e0 [|e1 [|e2 examples]]]; try discriminate Hlen.
  destruct (Hrow 0 _ eq_refl) as (text0 & lab0 & [= <-] & [= <-] & [= ->]).
  destruct (Hrow 1 _ eq_refl) as (text1 & lab1 & [= <-] & [= <-] & [= ->]).
  reflexivity.
Defined.

(** C6. Processors "old", "new_clean" and "new": as soon as one row has
    fewer than four columns, [_create_examples] raises IndexError; no
    example of any other row is returned. *)
Theorem create_examples_short_row (lines : list (list string)) (set_type : string) :
  Exists (λ line, length line < 4) lines →
  Forall (λ create, create lines set_type = Err IndexError) humor_creators.
Proof.
  intros Hshort. apply Forall_forall. intros create Hin.
  rewrite (humor_creators_body create Hin).
  by apply create_loop_short.
Qed.

Lemma create_examples_short_row_witness :
  Forall (λ create,
      create [["a";"1";"c";"joke"]; ["x";"0";"z"]; ["p";"1";"q";"pun"]] "train"
      = Err IndexError)
    humor_creators.
Proof.
  apply (create_examples_short_row
           [["a";"1";"c";"joke"]; ["x";"0";"z"]; ["p";"1";"q";"pun"]] "train").
  apply Exists_cons_tl, Exists_cons_hd. cbn. lia.
Defined.

(** ** Lists cut into batches *)

Lemma for_each_snoc {A S} (body : S → A → result S) xs x : ∀ acc,
  for_each body (xs ++ [x]) acc = (acc' ← for_each body xs acc; body acc' x).
Proof.
  induction xs as [|y xs IH]; intros acc; cbn.
  - by destruct (body acc x).
  - destruct (body acc y); cbn; [apply IH | done].
Qed.

Lemma take_batches {A} (b : nat) (t : list A) (m : nat) :
  concat ((λ k, batch_slice b k t) <$> seq 0 m) = take (m * b) t.
Proof.
  induction m as [|m IH]; [done|].
  rewrite seq_S, fmap_app, concat_app, IH. cbn. rewrite app_nil_r.
  unfold batch_slice.
  replace (b + m * b) with (m * b + b) by lia.
  by rewrite take_take_drop.
Qed.

Lemma num_batches_covers (n b : nat) : 0 < b → n ≤ num_batches n b * b.
Proof.
  intros Hb. unfold num_batches.
  pose proof (Nat.div_mod_eq (n + b - 1) b) as Hdm.
  pose proof (Nat.mod_upper_bound (n + b - 1) b ltac:(lia)) as Hlt.
  nia.
Qed.

Lemma num_batches_pos (n b : nat) : 0 < b → 0 < n → 0 < num_batches n b.
Proof.
  intros Hb Hn. unfold num_batches.
  apply Nat.div_str_pos. lia.
Qed.

Lemma num_batches_zero (b : nat) : 0 < b → num_batches 0 b = 0.
Proof.
  intros Hb. unfold num_batches. apply Nat.div_small. lia.
Qed.

(** Cutting a tensor into consecutive batches and gluing them back. *)
Lemma concat_batches {A} (b : nat) (t : list A) (n : nat) :
  0 < b → length t ≤ n →
  concat ((λ k, batch_slice b k t) <$> seq 0 (num_batches n b)) = t.
Proof.
  intros Hb Hn. rewrite take_batches. apply take_ge.
  pose proof (num_batches_covers n b Hb). lia.
Qed.

(** ** The evaluation loop *)

Section EvaluationProperties.
Context `{Collaborators}.

Lemma build_inputs_ok args batch :
  batch_ok args batch → build_inputs args batch = Ok (inputs_of args batch).
Proof.
  unfold batch_ok, build_inputs, inputs_of. intros Hok.
  destruct (contains "baseline_" (data_dir args)); cbn [negb].
  - rewrite (getitem_lt batch 0); [|lia]. rewrite (getitem_lt batch 2); [|lia].
    rewrite (getitem_lt batch 1); [|lia]. rewrite (getitem_lt batch 3); [|lia].
    reflexivity.
  - rewrite (getitem_lt batch 0); [|lia]. rewrite (getitem_lt batch 2); [|lia].
    rewrite (getitem_lt batch 1); [|lia]. rewrite (getitem_lt batch 3); [|lia].
    rewrite (getitem_lt batch 4); [|lia]. reflexivity.
Qed.

Lemma inputs_of_labels args batch :
  inputs_of args batch !! "labels" = Some (batch !!! 3).
Proof.
  unfold inputs_of. destruct (contains "baseline_" (data_dir args)); cbn [negb].
  - by rewrite lookup_insert_eq.
  - rewrite lookup_insert_ne by done. by rewrite lookup_insert_eq.
Qed.

Lemma inputs_of_input_ids args batch :
  inputs_of args batch !! "input_ids" = Some (batch !!! 0).
Proof.
  unfold inputs_of. destruct (contains "baseline_" (data_dir args)); cbn [negb].
  - do 3 (rewrite lookup_insert_ne by done). by rewrite lookup_insert_eq.
  - do 4 (rewrite lookup_insert_ne by done). by rewrite lookup_insert_eq.
Qed.

Lemma np_argmax_total (out : list (list float)) :
  Forall (λ row, row ≠ []) out → np_argmax out = Ok (argmax_total <$> out).
Proof.
  induction 1 as [|row out Hrow _ IH]; [done|].
  cbn [np_argmax]. destruct row as [|x row]; [done|].
  cbn. by rewrite IH.
Qed.

Lemma np_sum_count (logits : list (list float)) : ∀ labels : tensor,
  np_sum (zip_with (λ o l, bool_decide (l = Scalar (Z.of_nat o)))
                   (argmax_total <$> logits) labels)
  = count_correct logits labels.
Proof.
  unfold np_sum, count_correct.
  induction logits as [|row logits IH]; intros [|l labels]; try done.
  cbn [fmap list_fmap zip_with]. rewrite !filter_cons. cbn [fst snd].
  specialize (IH labels). apply Nat2Z.inj in IH.
  destruct (decide (l = Scalar (Z.of_nat (argmax_total row)))) as [Heq|Hne].
  - rewrite (bool_decide_eq_true_2 _ Heq).
    rewrite decide_True by done. cbn [length]. by rewrite IH.
  - rewrite (bool_decide_eq_false_2 _ Hne).
    rewrite decide_False by done. by rewrite IH.
Qed.

Lemma accuracy_count (logits : list (list float)) (labels : tensor) :
  length logits = length labels →
  Forall (λ row, row ≠ []) logits →
  accuracy logits labels = Ok (count_correct logits labels).
Proof.
  intros Hlen Hrows. unfold accuracy.
  rewrite np_argmax_total by done. cbn [mbind result_bind].
  unfold np_equal. rewrite length_fmap, bool_decide_eq_true_2 by done.
  cbn [mbind result_bind]. by rewrite np_sum_count.
Qed.

Lemma count_correct_app (a a' : list (list float)) (l l' : tensor) :
  length a = length l →
  count_correct (a ++ a') (l ++ l') = (count_correct a l + count_correct a' l')%Z.
Proof.
  intros Hlen. unfold count_correct.
  rewrite (zip_with_app pair a a' l l' Hlen).
  rewrite filter_app, length_app. lia.
Qed.

Lemma buffer_of_snoc {A} (chunks : list (list A)) (c : list A) :
  append_rows (buffer_of chunks) c = buffer_of (chunks ++ [c]).
Proof.
  destruct chunks as [|c0 chunks]; cbn.
  - by rewrite app_nil_r.
  - rewrite concat_app. cbn. by rewrite app_nil_r, app_assoc.
Qed.

Lemma rows_of_buffer {A} (chunks : list (list A)) :
  rows_of (buffer_of chunks) = concat chunks.
Proof. by destruct chunks. Qed.

(** Under the contract, logits and labels of the batches line up. *)
Lemma logits_labels_length args model batches :
  model_ok model →
  length (concat (batch_logits args model <$> batches))
  = length (concat ((λ batch, batch !!! 3) <$> batches)).
Proof.
  intros Hmodel. induction batches as [|batch batches IH]; [done|].
  cbn [fmap list_fmap concat]. rewrite !length_app, IH. f_equal.
  unfold batch_logits.
  by destruct (Hmodel _ _ (inputs_of_labels args batch)) as [-> _].
Qed.

Lemma eval_step_spec args model batches batch :
  model_ok model → batch_ok args batch →
  eval_step args model (state_after args model batches) batch
  = Ok (state_after args model (batches ++ [batch])).
Proof.
  intros Hmodel Hok. unfold eval_step.
  rewrite build_inputs_ok by done. cbn [mbind result_bind].
  destruct (Hmodel _ _ (inputs_of_labels args batch)) as [Hlen Hrows].
  pose proof (accuracy_count _ _ Hlen Hrows) as Hacc.
  destruct (model (inputs_of args batch)) as [loss logits] eqn:Hout.
  unfold dict_getitem. rewrite inputs_of_labels, inputs_of_input_ids.
  cbn [mbind result_bind]. cbn [snd] in Hacc. rewrite Hacc.
  cbn [mbind result_bind]. f_equal.
  assert (batch_logits args model batch = logits) as Hlg
    by (unfold batch_logits; by rewrite Hout).
  assert (batch_loss args model batch = loss) as Hls
    by (unfold batch_loss; by rewrite Hout).
  unfold state_after. cbn [full_labels full_logits eval_loss eval_accuracy
                           nb_eval_steps nb_eval_examples].
  rewrite !fmap_app, !concat_app. cbn [fmap list_fmap concat].
  rewrite !app_nil_r, Hlg, Hls.
  f_equal.
  - by rewrite fold_left_app.
  - rewrite count_correct_app; [done|]. by apply logits_labels_length.
  - rewrite length_app. cbn. lia.
  - rewrite length_app. lia.
  - apply buffer_of_snoc.
  - apply buffer_of_snoc.
Qed.

(** The loop invariant: after any list of well-formed batches the running
    aggregates are those of [state_after]. *)
Lemma for_each_eval_step args model batches :
  model_ok model → Forall (batch_ok args) batches →
  for_each (eval_step args model) batches init_aggregates
  = Ok (state_after args model batches).
Proof.
  intros Hmodel. induction batches as [|batch batches IH] using rev_ind; intros Hall.
  - reflexivity.
  - apply Forall_app in Hall as [Hall Hbatch].
    apply Forall_cons in Hbatch as [Hbatch _].
    rewrite for_each_snoc, IH by done. cbn [mbind result_bind].
    by apply eval_step_spec.
Qed.

(** ** Shape of the assembled dataset *)

Lemma store_rows_length width rows : ∀ t,
  store_rows width rows = Ok t → length t = length rows.
Proof.
  induction rows as [|row rows IH]; intros t; cbn [store_rows].
  - by intros [= <-].
  - destruct (negb _); [done|]. destruct (negb _); [done|].
    destruct (store_rows width rows) as [t'|]; [|done]. cbn [mbind result_bind].
    intros [= <-]. cbn [length]. by rewrite (IH t').
Qed.

Lemma torch_tensor_2d_length rows t :
  torch_tensor_2d rows = Ok t → length t = length rows.
Proof.
  unfold torch_tensor_2d. destruct rows as [|r rows]; [by intros [= <-]|].
  apply store_rows_length.
Qed.

Lemma torch_tensor_1d_length xs t :
  torch_tensor_1d xs = Ok t → length t = length xs.
Proof.
  unfold torch_tensor_1d. destruct (forallb int64_ok xs); [|done].
  intros [= <-]. apply length_fmap.
Qed.

Lemma TensorDataset_inv tensors dataset :
  TensorDataset tensors = Ok dataset → dataset = tensors.
Proof.
  unfold TensorDataset. destruct tensors as [|t0 ts]; [by intros [= <-]|].
  destruct (forallb _ _); [by intros [= <-] | done].
Qed.

Lemma legacy_tensors_shape features dataset :
  legacy_tensors features = Ok dataset →
  dataset_shape dataset 4 (length features).
Proof.
  unfold legacy_tensors. intros Hds.
  destruct (torch_tensor_2d (input_ids <$> features)) as [t0|] eqn:H0; [|done].
  destruct (torch_tensor_2d (input_mask <$> features)) as [t1|] eqn:H1; [|done].
  destruct (torch_tensor_2d (segment_ids <$> features)) as [t2|] eqn:H2; [|done].
  destruct (torch_tensor_1d (label_id <$> features)) as [t3|] eqn:H3; [|done].
  cbn [mbind result_bind] in Hds. apply TensorDataset_inv in Hds as ->.
  apply torch_tensor_2d_length in H0, H1, H2. apply torch_tensor_1d_length in H3.
  rewrite length_fmap in H0, H1, H2. rewrite length_fmap in H3.
  split; [done|]. by repeat constructor.
Qed.

Lemma extended_tensors_shape features dataset :
  extended_tensors features = Ok dataset →
  dataset_shape dataset 5 (length features).
Proof.
  unfold extended_tensors. intros Hds.
  destruct (torch_tensor_2d (f_input_ids <$> features)) as [t0|] eqn:H0; [|done].
  destruct (torch_tensor_2d (f_input_mask <$> features)) as [t1|] eqn:H1; [|done].
  destruct (torch_tensor_2d (f_segment_ids <$> features)) as [t2|] eqn:H2; [|done].
  destruct (torch_tensor_1d (f_ambiguity <$> features)) as [t4|] eqn:H4; [|done].
  destruct (torch_tensor_1d (f_label_id <$> features)) as [t3|] eqn:H3; [|done].
  cbn [mbind result_bind] in Hds. apply TensorDataset_inv in Hds as ->.
  apply torch_tensor_2d_length in H0, H1, H2.
  apply torch_tensor_1d_length in H3, H4.
  rewrite length_fmap in H0, H1, H2. rewrite length_fmap in H3, H4.
  split; [done|]. by repeat constructor.
Qed.

(** What [load_and_cache_examples] returns is rectangular: four tensors
    from the legacy loader, five from the extended one. *)
Lemma load_and_cache_examples_shape fs args tok ambiguity_fn task_name dataset :
  load_and_cache_examples fs args tok ambiguity_fn task_name = Ok dataset →
  ∃ n, dataset_shape dataset (if old_load args then 4 else 5) n.
Proof.
  unfold load_and_cache_examples. destruct (old_load args).
  - destruct (dict_getitem processors task_name) as [p|]; [|done].
    cbn [mbind result_bind].
    destruct (if negb (truth evaluate_name) then _ else _) as [examples|]; [|done].
    cbn [mbind result_bind].
    destruct (convert_examples_new _ _ _ _) as [features|]; [|done].
    cbn [mbind result_bind]. intros Hds. eexists.
    by apply legacy_tensors_shape.
  - destruct (HumorDetectionDataset _ _ _ _ _ _) as [d|]; [|done].
    cbn [mbind result_bind].
    destruct (convert_dataset_to_features _ _ _) as [features|]; [|done].
    cbn [mbind result_bind]. intros Hds. eexists.
    by apply extended_tensors_shape.
Qed.

Lemma dataset_len_shape dataset fields n :
  dataset_shape dataset fields n → 0 < fields → dataset_len dataset = Ok n.
Proof.
  intros [Hfields Hrows] Hpos. unfold dataset_len.
  destruct dataset as [|t0 dataset]; [cbn in Hfields; lia|].
  apply Forall_cons in Hrows as [<- _]. reflexivity.
Qed.

Lemma DataLoader_batches dataset fields n (b : Z) :
  dataset_shape dataset fields n → 0 < fields → (0 < b)%Z →
  DataLoader dataset b = Ok (batches_of dataset (Z.to_nat b) n).
Proof.
  intros Hshape Hpos Hb. unfold DataLoader.
  rewrite (dataset_len_shape _ _ _ Hshape Hpos). cbn [mbind result_bind].
  rewrite bool_decide_eq_false_2 by lia. reflexivity.
Qed.

Lemma batches_of_length dataset b n :
  Forall (λ batch : list tensor, length batch = length dataset) (batches_of dataset b n).
Proof.
  unfold batches_of. apply Forall_fmap, Forall_true. intros k. cbn.
  by rewrite length_fmap.
Qed.

Lemma batches_of_ok args dataset b n :
  batch_ok args dataset → Forall (batch_ok args) (batches_of dataset b n).
Proof.
  intros Hok. eapply Forall_impl; [apply batches_of_length|].
  intros batch Hlen. unfold batch_ok in *. by rewrite Hlen.
Qed.

Lemma batches_of_nonempty dataset b n :
  0 < b → 0 < n → batches_of dataset b n ≠ [].
Proof.
  intros Hb Hn. unfold batches_of.
  pose proof (num_batches_pos n b Hb Hn).
  destruct (num_batches n b); [lia | done].
Qed.

(** Sequential sampling: field by field, the batches glued together are
    the dataset. *)
Lemma concat_batches_field dataset b n j :
  0 < b → j < length dataset →
  Forall (λ t : tensor, length t = n) dataset →
  concat ((λ batch : list tensor, batch !!! j) <$> batches_of dataset b n)
  = dataset !!! j.
Proof.
  intros Hb Hj Hrows. unfold batches_of. rewrite <- list_fmap_compose.
  rewrite <- (concat_batches b (dataset !!! j) n Hb).
  - f_equal. apply list_fmap_ext. intros _ k _. cbn.
    apply (list_lookup_total_fmap (batch_slice b k) dataset j Hj).
  - destruct (lookup_lt_is_Some_2 dataset j Hj) as [t Ht].
    rewrite (list_lookup_total_correct _ _ _ Ht).
    by rewrite (Forall_lookup_1 _ _ _ _ Hrows Ht).
Qed.

Lemma buffer_of_nonempty {A} (chunks : list (list A)) :
  chunks ≠ [] → buffer_of chunks = Some (concat chunks).
Proof. by destruct chunks. Qed.

Lemma load_batch_ok fs args tok ambiguity_fn task_name dataset :
  load_and_cache_examples fs args tok ambiguity_fn task_name = Ok dataset →
  (old_load args = true → contains "baseline_" (data_dir args) = true) →
  batch_ok args dataset.
Proof.
  intros Hload Hfields.
  destruct (load_and_cache_examples_shape _ _ _ _ _ _ Hload) as [n [Hlen _]].
  unfold batch_ok. destruct (old_load args).
  - rewrite Hfields by done. lia.
  - destruct (contains _ _); lia.
Qed.

Lemma batch_ok_fields args dataset : batch_ok args dataset → 4 ≤ length dataset.
Proof. unfold batch_ok. destruct (contains _ _); lia. Qed.

Lemma run_logits_rows args model batches :
  model_ok model →
  Forall (λ row, row ≠ []) (concat (batch_logits args model <$> batches)).
Proof.
  intros Hmodel. apply Forall_concat, Forall_fmap, Forall_true. intros batch.
  by destruct (Hmodel _ _ (inputs_of_labels args batch)).
Qed.

(** One full run over a loaded dataset with at least one row. *)
Lemma evaluate_run fs args model tok ambiguity_fn task_name dataset fields n :
  load_and_cache_examples fs args tok ambiguity_fn task_name = Ok dataset →
  dataset_shape dataset fields n → batch_ok args dataset →
  0 < n → (0 < eval_batch_size args)%Z → model_ok model →
  let batches := batches_of dataset (Z.to_nat (eval_batch_size args)) n in
  let logits := concat (batch_logits args model <$> batches) in
  evaluate fs args model tok ambiguity_fn task_name
  = Ok (float_div (fold_left float_add (batch_loss args model <$> batches) (of_int 0))
                  (of_int (Z.of_nat (length batches))),
        float_div (of_int (count_correct logits (dataset !!! 3)))
                  (of_int (Z.of_nat n)),
        f1_score (dataset !!! 3) (argmax_total <$> logits)).
Proof.
  intros Hload Hshape Hok Hn Hb Hmodel batches logits.
  pose proof (batch_ok_fields _ _ Hok) as Hfields.
  destruct Hshape as [Hlen Hrows].
  assert (0 < Z.to_nat (eval_batch_size args)) as Hbn by lia.
  assert (batches ≠ []) as Hne by (by apply batches_of_nonempty).
  unfold evaluate. rewrite Hload. cbn [mbind result_bind].
  unfold eval_loop.
  rewrite (DataLoader_batches dataset fields n); [|done|lia|done].
  cbn [mbind result_bind]. fold batches.
  rewrite for_each_eval_step; [|done|by apply batches_of_ok].
  cbn [mbind result_bind]. unfold state_after.
  cbn [full_labels full_logits eval_loss eval_accuracy nb_eval_steps nb_eval_examples].
  rewrite !buffer_of_nonempty by (by destruct batches).
  fold logits.
  assert (concat ((λ batch : list tensor, batch !!! 3) <$> batches) = dataset !!! 3)
    as -> by (apply concat_batches_field; [lia..|done]).
  assert (concat ((λ batch : list tensor, batch !!! 0) <$> batches) = dataset !!! 0)
    as -> by (apply concat_batches_field; [lia..|done]).
  assert (length logits = length (dataset !!! 3)) as Hll.
  { unfold logits. rewrite logits_labels_length by done. fold batches.
    f_equal. apply concat_batches_field; [lia..|done]. }
  pose proof (run_logits_rows args model batches Hmodel) as Hnonempty.
  fold logits in Hnonempty.
  unfold get_metrics. cbn [array_of mbind result_bind].
  rewrite np_argmax_total by done. cbn [mbind result_bind].
  rewrite accuracy_count by done. cbn [mbind result_bind].
  assert (length (dataset !!! 0) = n) as Hn0.
  { destruct (lookup_lt_is_Some_2 dataset 0 ltac:(lia)) as [t Ht].
    rewrite (list_lookup_total_correct _ _ _ Ht).
    by apply (Forall_lookup_1 _ _ _ _ Hrows Ht). }
  unfold truediv. rewrite Hn0.
  assert (Z.of_nat (length batches) ≠ 0%Z) as Hsteps
    by (destruct batches; [done | cbn [length]; lia]).
  rewrite (bool_decide_eq_false_2 _ Hsteps). cbn [mbind result_bind].
  rewrite bool_decide_eq_false_2 by lia. reflexivity.
Qed.

Lemma dataset_len_rows dataset fields n n' :
  dataset_shape dataset fields n → 0 < fields → dataset_len dataset = Ok n' → n' = n.
Proof.
  intros Hshape Hpos Hlen.
  rewrite (dataset_len_shape _ _ _ Hshape Hpos) in Hlen. by injection Hlen.
Qed.

(** C3. A run over a loaded dataset with at least one row, whose fields fit
    the path (the legacy loader only with a baseline directory), with a
    positive batch size and a classifier that keeps its contract: the
    loader yields [num_batches n b] batches, at least one; the loss
    returned is the running sum of the per-batch losses, started at 0,
    divided by the number of batches; the accuracy returned is the number
    of correct rows divided by the number of rows [n]. The divisor of the
    loss is the batch count whatever the size of the last batch. *)
Theorem evaluate_loss_over_batches fs args model tok ambiguity_fn task_name dataset n :
  load_and_cache_examples fs args tok ambiguity_fn task_name = Ok dataset →
  (old_load args = true → contains "baseline_" (data_dir args) = true) →
  dataset_len dataset = Ok n → 0 < n →
  (0 < eval_batch_size args)%Z →
  model_ok model →
  ∃ batches f1,
    DataLoader dataset (eval_batch_size args) = Ok batches ∧
    length batches = num_batches n (Z.to_nat (eval_batch_size args)) ∧
    0 < length batches ∧
    evaluate fs args model tok ambiguity_fn task_name
    = Ok (float_div
            (fold_left float_add (batch_loss args model <$> batches) (of_int 0))
            (of_int (Z.of_nat (length batches))),
          float_div
            (of_int (count_correct (concat (batch_logits args model <$> batches))
                                   (dataset !!! 3)))
            (of_int (Z.of_nat n)),
          f1).
Proof.
  intros Hload Hfit Hlen Hn Hb Hmodel.
  pose proof (load_batch_ok _ _ _ _ _ _ Hload Hfit) as Hok.
  pose proof (batch_ok_fields _ _ Hok) as Hfields.
  destruct (load_and_cache_examples_shape _ _ _ _ _ _ Hload) as [n' Hshape].
  assert (n = n') as <-.
  { eapply dataset_len_rows; [done| |done]. destruct Hshape as [<- _]. lia. }
  eexists _, _. split; [|split; [|split]].
  - eapply DataLoader_batches; [done| |done]. destruct Hshape as [<- _]. lia.
  - unfold batches_of. by rewrite length_fmap, length_seq.
  - unfold batches_of. rewrite length_fmap, length_seq.
    apply num_batches_pos; lia.
  - by eapply evaluate_run.
Qed.

(** C5. A run over a loaded dataset whose fields fit the path, with a
    positive batch size and a classifier that keeps its contract: batch [k]
    of the loader holds the rows [k*b .. k*b+b-1] of every field, so the
    batches glued together give back each field of the dataset; the loop
    ends, and after it the label buffer holds at every index [i] the label
    of dataset element [i], and the logits buffer holds the logits of the
    batches in the order of the batches, one row per dataset element. *)
Theorem eval_loop_keeps_row_order fs args model tok ambiguity_fn task_name dataset n :
  load_and_cache_examples fs args tok ambiguity_fn task_name = Ok dataset →
  (old_load args = true → contains "baseline_" (data_dir args) = true) →
  dataset_len dataset = Ok n →
  (0 < eval_batch_size args)%Z →
  model_ok model →
  ∃ batches st,
    DataLoader dataset (eval_batch_size args) = Ok batches ∧
    (∀ k batch, batches !! k = Some batch →
       batch = batch_slice (Z.to_nat (eval_batch_size args)) k <$> dataset) ∧
    (∀ j, j < length dataset →
       concat ((λ batch : list tensor, batch !!! j) <$> batches) = dataset !!! j) ∧
    eval_loop args model dataset = Ok st ∧
    (∀ i, rows_of (full_labels st) !! i = (dataset !!! 3) !! i) ∧
    rows_of (full_logits st) = concat (batch_logits args model <$> batches) ∧
    length (rows_of (full_logits st)) = n.
Proof.
  intros Hload Hfit Hlen Hb Hmodel.
  pose proof (load_batch_ok _ _ _ _ _ _ Hload Hfit) as Hok.
  pose proof (batch_ok_fields _ _ Hok) as Hfields.
  destruct (load_and_cache_examples_shape _ _ _ _ _ _ Hload) as [n' Hshape].
  assert (0 < if old_load args then 4 else 5) as Hpos by (destruct (old_load args); lia).
  assert (n = n') as <- by (by eapply dataset_len_rows).
  assert (0 < Z.to_nat (eval_batch_size args)) as Hbn by lia.
  destruct Hshape as [Hcount Hrows].
  set (b := Z.to_nat (eval_batch_size args)) in *.
  assert (concat ((λ batch : list tensor, batch !!! 3) <$> batches_of dataset b n)
          = dataset !!! 3) as Hlabels
    by (apply concat_batches_field; [done|lia|done]).
  exists (batches_of dataset b n), (state_after args model (batches_of dataset b n)).
  split; [by eapply DataLoader_batches|].
  split.
  { intros k batch Hk. unfold batches_of in Hk.
    rewrite list_lookup_fmap in Hk.
    destruct (seq 0 (num_batches n b) !! k) as [k'|] eqn:Hseq; [|done].
    apply lookup_seq in Hseq as [-> _]. by injection Hk as <-. }
  split; [intros j Hj; by apply concat_batches_field|].
  split.
  { unfold eval_loop. erewrite DataLoader_batches by done.
    cbn [mbind result_bind].
    apply for_each_eval_step; [done | by apply batches_of_ok]. }
  cbn [state_after full_labels full_logits]. rewrite !rows_of_buffer.
  split; [intros i; by rewrite Hlabels|]. split; [done|].
  rewrite logits_labels_length, Hlabels by done.
  destruct (lookup_lt_is_Some_2 dataset 3 ltac:(lia)) as [t Ht].
  rewrite (list_lookup_total_correct _ _ _ Ht).
  by apply (Forall_lookup_1 _ _ _ _ Hrows Ht).
Qed.

(** ** Independence of the batch size *)

Lemma inputs_of_fmap args (f : tensor → tensor) (batch : list tensor) :
  batch_ok args batch →
  inputs_of args (f <$> batch) = f <$> inputs_of args batch.
Proof.
  unfold batch_ok, inputs_of. intros Hok.
  destruct (contains "baseline_" (data_dir args)); cbn [negb];
    rewrite !fmap_insert, fmap_empty;
    repeat (rewrite (list_lookup_total_fmap f batch); [|lia]); done.
Qed.

Lemma inputs_of_set_eval_batch_size args b batch :
  inputs_of (set_eval_batch_size args b) batch = inputs_of args batch.
Proof. reflexivity. Qed.

(** For a classifier that scores rows on their own, the logits of the
    batches glued together are the logits of the dataset taken at once. *)
Lemma run_logits_batch_invariant args model dataset b n :
  model_ok model → batch_invariant model →
  batch_ok args dataset → 0 < b →
  length (dataset !!! 3) = n →
  concat (batch_logits args model <$> batches_of dataset b n)
  = (model (inputs_of args dataset)).2.
Proof.
  intros Hmodel Hinv Hok Hb Hn. unfold batches_of.
  rewrite <- list_fmap_compose.
  rewrite <- (concat_batches b (model (inputs_of args dataset)).2 n Hb).
  - f_equal. apply list_fmap_ext. intros _ k _. cbn. unfold batch_logits.
    by rewrite inputs_of_fmap, Hinv.
  - destruct (Hmodel _ _ (inputs_of_labels args dataset)) as [-> _]. lia.
Qed.

Lemma load_set_eval_batch_size fs args b tok ambiguity_fn task_name :
  load_and_cache_examples fs (set_eval_batch_size args b) tok ambiguity_fn task_name
  = load_and_cache_examples fs args tok ambiguity_fn task_name.
Proof. reflexivity. Qed.

Lemma evaluate_accuracy_at fs args model tok ambiguity_fn task_name dataset n b :
  load_and_cache_examples fs args tok ambiguity_fn task_name = Ok dataset →
  (old_load args = true → contains "baseline_" (data_dir args) = true) →
  dataset_len dataset = Ok n → 0 < n → model_ok model → (0 < b)%Z →
  returned_accuracy
    (evaluate fs (set_eval_batch_size args b) model tok ambiguity_fn task_name)
  = Some (float_div
            (of_int (count_correct
                       (concat (batch_logits args model
                                  <$> batches_of dataset (Z.to_nat b) n))
                       (dataset !!! 3)))
            (of_int (Z.of_nat n))).
Proof.
  intros Hload Hfit Hlen Hn Hmodel Hb.
  pose proof (load_batch_ok _ _ _ _ _ _ Hload Hfit) as Hok.
  destruct (load_and_cache_examples_shape _ _ _ _ _ _ Hload) as [n' Hshape].
  assert (0 < if old_load args then 4 else 5) as Hpos by (destruct (old_load args); lia).
  assert (n = n') as <- by (by eapply dataset_len_rows).
  erewrite (evaluate_run fs (set_eval_batch_size args b)); [reflexivity|..]; done.
Qed.

(** C1. A run over a loaded dataset with at least one row, whose fields fit
    the path, with a classifier that keeps its contract. For every positive
    batch size the accuracy returned is the number of rows whose argmax
    over the class dimension of the logits equals the gold label, divided
    by the number of rows, where the logits are those of the batches in
    batch order. For a classifier that scores every row on its own these
    are the logits of the dataset taken at once, so the accuracy is the
    same for every positive batch size, in particular for batch size 1 and
    for a batch size equal to the size of the dataset. *)
Theorem evaluate_accuracy_batch_size fs args model tok ambiguity_fn task_name dataset n :
  load_and_cache_examples fs args tok ambiguity_fn task_name = Ok dataset →
  (old_load args = true → contains "baseline_" (data_dir args) = true) →
  dataset_len dataset = Ok n → 0 < n →
  model_ok model →
  (∀ b, (0 < b)%Z →
     ∃ batches,
       DataLoader dataset b = Ok batches ∧
       returned_accuracy
         (evaluate fs (set_eval_batch_size args b) model tok ambiguity_fn task_name)
       = Some (float_div
                 (of_int (count_correct (concat (batch_logits args model <$> batches))
                                        (dataset !!! 3)))
                 (of_int (Z.of_nat n))))
  ∧ (batch_invariant model →
     (∀ b, (0 < b)%Z →
        returned_accuracy
          (evaluate fs (set_eval_batch_size args b) model tok ambiguity_fn task_name)
        = Some (float_div
                  (of_int (count_correct (model (inputs_of args dataset)).2
                                         (dataset !!! 3)))
                  (of_int (Z.of_nat n))))
     ∧ returned_accuracy
         (evaluate fs (set_eval_batch_size args 1) model tok ambiguity_fn task_name)
       = returned_accuracy
           (evaluate fs (set_eval_batch_size args (Z.of_nat n)) model tok
                     ambiguity_fn task_name)).
Proof.
  intros Hload Hfit Hlen Hn Hmodel.
  pose proof (load_batch_ok _ _ _ _ _ _ Hload Hfit) as Hok.
  pose proof (batch_ok_fields _ _ Hok) as Hfields.
  destruct (load_and_cache_examples_shape _ _ _ _ _ _ Hload) as [n' Hshape].
  assert (0 < if old_load args then 4 else 5) as Hpos by (destruct (old_load args); lia).
  assert (n = n') as <- by (by eapply dataset_len_rows).
  split.
  - intros b Hb. exists (batches_of dataset (Z.to_nat b) n).
    split; [by eapply DataLoader_batches|]. by apply evaluate_accuracy_at.
  - intros Hinv.
    assert (∀ b, (0 < b)%Z →
      returned_accuracy
        (evaluate fs (set_eval_batch_size args b) model tok ambiguity_fn task_name)
      = Some (float_div
                (of_int (count_correct (model (inputs_of args dataset)).2
                                       (dataset !!! 3)))
                (of_int (Z.of_nat n)))) as Hall.
    { intros b Hb. rewrite (evaluate_accuracy_at _ _ _ _ _ _ dataset n) by done.
      rewrite run_logits_batch_invariant; [done..|lia|].
      destruct Hshape as [_ Hrows].
      destruct (lookup_lt_is_Some_2 dataset 3 ltac:(lia)) as [t Ht].
      rewrite (list_lookup_total_correct _ _ _ Ht).
      by apply (Forall_lookup_1 _ _ _ _ Hrows Ht). }
    split; [done|]. rewrite !Hall by lia. done.
Qed.

(** ** The keyword bundle *)

Lemma build_inputs_short args batch :
  length batch = 4 → contains "baseline_" (data_dir args) = false →
  build_inputs args batch = Err IndexError.
Proof.
  intros Hlen Hbase. unfold build_inputs. rewrite Hbase. cbn [negb].
  rewrite (getitem_lt batch 0); [|lia]. rewrite (getitem_lt batch 2); [|lia].
  rewrite (getitem_lt batch 1); [|lia]. rewrite (getitem_lt batch 3); [|lia].
  cbn [mbind result_bind]. rewrite (getitem_ge batch 4); [done|lia].
Qed.

Lemma inputs_of_ambiguity args batch :
  inputs_of args batch !! "ambiguity_scores"
  = if contains "baseline_" (data_dir args) then None else Some (batch !!! 4).
Proof.
  unfold inputs_of. destruct (contains "baseline_" (data_dir args)); cbn [negb].
  - by repeat (rewrite lookup_insert_ne by done).
  - by rewrite lookup_insert_eq.
Qed.

Lemma build_inputs_inv args batch inputs :
  build_inputs args batch = Ok inputs → inputs = inputs_of args batch.
Proof.
  unfold build_inputs, inputs_of, getitem. intros Hb.
  rewrite !list_lookup_total_alt.
  destruct (batch !! 0); [|done]. destruct (batch !! 2); [|done].
  destruct (batch !! 1); [|done]. destruct (batch !! 3); [|done].
  cbn [mbind result_bind] in Hb.
  destruct (contains "baseline_" (data_dir args)); cbn [negb] in *.
  - by injection Hb as <-.
  - destruct (batch !! 4); [|done]. by injection Hb as <-.
Qed.

Lemma eval_step_build_inputs_err args model st batch e :
  build_inputs args batch = Err e → eval_step args model st batch = Err e.
Proof. intros Hb. unfold eval_step. by rewrite Hb. Qed.

(** C2. The keyword bundle of a batch. With a data directory whose path
    contains "baseline_", a batch of at least four fields gives a bundle
    without the key "ambiguity_scores"; with any other data directory, a
    batch of at least five fields gives a bundle whose "ambiguity_scores"
    is the fifth field; and whenever a bundle is built at all, it has the
    key exactly when the path does not contain "baseline_". The classifier
    is called on this bundle and on nothing else. *)
Theorem build_inputs_ambiguity_scores args (batch : list tensor) :
  (contains "baseline_" (data_dir args) = true → 4 ≤ length batch →
     ∃ inputs, build_inputs args batch = Ok inputs ∧
               inputs !! "ambiguity_scores" = None)
  ∧ (contains "baseline_" (data_dir args) = false → 5 ≤ length batch →
     ∃ inputs, build_inputs args batch = Ok inputs ∧
               inputs !! "ambiguity_scores" = Some (batch !!! 4))
  ∧ (∀ inputs, build_inputs args batch = Ok inputs →
       (is_Some (inputs !! "ambiguity_scores")
        ↔ contains "baseline_" (data_dir args) = false))
  ∧ (∀ model st st', eval_step args model st batch = Ok st' →
       ∃ inputs, build_inputs args batch = Ok inputs ∧
                 eval_loss st' = float_add (eval_loss st) (model inputs).1).
Proof.
  split; [|split; [|split]].
  - intros Hbase Hlen. exists (inputs_of args batch). split.
    + apply build_inputs_ok. unfold batch_ok. by rewrite Hbase.
    + by rewrite inputs_of_ambiguity, Hbase.
  - intros Hbase Hlen. exists (inputs_of args batch). split.
    + apply build_inputs_ok. unfold batch_ok. by rewrite Hbase.
    + by rewrite inputs_of_ambiguity, Hbase.
  - intros inputs ->%build_inputs_inv. rewrite inputs_of_ambiguity.
    destruct (contains "baseline_" (data_dir args)).
    + split; [by intros [? ?] | done].
    + split; [done | by eexists].
  - intros model st st' Hstep. unfold eval_step in Hstep.
    destruct (build_inputs args batch) as [inputs|]; [|done].
    exists inputs. split; [done|]. cbn [mbind result_bind] in Hstep.
    destruct (model inputs) as [loss logits].
    destruct (dict_getitem inputs "labels"); [|done].
    cbn [mbind result_bind] in Hstep.
    destruct (accuracy logits a); [|done]. cbn [mbind result_bind] in Hstep.
    destruct (dict_getitem inputs "input_ids"); [|done].
    cbn [mbind result_bind] in Hstep. by injection Hstep as <-.
Qed.

(** ** Failures of a run *)

(** C7. A run over a loaded dataset with zero rows returns an exception
    that is not ZeroDivisionError: the loader yields no batch, the buffers
    stay [None], and [get_metrics] raises AxisError on the first of them
    before any division is reached (a batch size that is not positive is
    refused by the loader with ValueError even earlier). *)
Theorem evaluate_empty_dataset fs args model tok ambiguity_fn task_name dataset :
  load_and_cache_examples fs args tok ambiguity_fn task_name = Ok dataset →
  dataset_len dataset = Ok 0 →
  ∃ e, evaluate fs args model tok ambiguity_fn task_name = Err e ∧
       e ≠ ZeroDivisionError ∧
       ((0 < eval_batch_size args)%Z → e = AxisError).
Proof.
  intros Hload Hlen. unfold evaluate, eval_loop, DataLoader.
  rewrite Hload. cbn [mbind result_bind]. rewrite Hlen. cbn [mbind result_bind].
  destruct (bool_decide (eval_batch_size args ≤ 0)%Z) eqn:Hb.
  - exists ValueError. apply bool_decide_eq_true_1 in Hb.
    split; [done|]. split; [done | lia].
  - apply bool_decide_eq_false_1 in Hb.
    rewrite num_batches_zero by lia. cbn. exists AxisError. done.
Qed.

(** C9. A run with the legacy loader and a data directory whose path does
    not contain "baseline_", over a loaded dataset with at least one row and
    with a positive batch size, returns IndexError: the dataset has four
    tensors, and the bundle of the first batch asks for a fifth. *)
Theorem evaluate_legacy_without_baseline fs args model tok ambiguity_fn task_name dataset n :
  old_load args = true →
  contains "baseline_" (data_dir args) = false →
  load_and_cache_examples fs args tok ambiguity_fn task_name = Ok dataset →
  dataset_len dataset = Ok n → 0 < n →
  (0 < eval_batch_size args)%Z →
  length dataset = 4 ∧
  evaluate fs args model tok ambiguity_fn task_name = Err IndexError.
Proof.
  intros Hold Hbase Hload Hlen Hn Hb.
  destruct (load_and_cache_examples_shape _ _ _ _ _ _ Hload) as [n' Hshape].
  rewrite Hold in Hshape.
  assert (n = n') as <- by (eapply dataset_len_rows; [done|lia|done]).
  split; [by destruct Hshape|].
  unfold evaluate, eval_loop. rewrite Hload. cbn [mbind result_bind].
  erewrite DataLoader_batches; [|done|lia|done]. cbn [mbind result_bind].
  unfold batches_of.
  pose proof (num_batches_pos n (Z.to_nat (eval_batch_size args))
                ltac:(lia) Hn) as Hpos.
  destruct (num_batches n (Z.to_nat (eval_batch_size args))) as [|m]; [lia|].
  cbn [seq fmap list_fmap for_each].
  rewrite (eval_step_build_inputs_err _ _ _ _ IndexError); [done|].
  apply build_inputs_short; [|done].
  rewrite length_fmap. by destruct Hshape.
Qed.

(** ** The legacy loader *)

Lemma processors_lookup task_name p :
  processors !! task_name = Some p →
  p = ColaProcessor.new ∨ p = DumbProcessorClean.new ∨ p = DumbProcessor.new.
Proof.
  unfold processors.
  rewrite !lookup_insert_Some, lookup_singleton_Some.
  intros [[_ <-] | [_ [[_ <-] | [_ [_ <-]]]]]; auto.
Qed.

Lemma get_dev_examples_dev_files (fs fs' : filesystem) dir p :
  p = ColaProcessor.new ∨ p = DumbProcessorClean.new ∨ p = DumbProcessor.new →
  (∀ name, name ∈ dev_files → fs' (path_join dir name) = fs (path_join dir name)) →
  get_dev_examples p fs' dir = get_dev_examples p fs dir.
Proof.
  intros Hp Hfs.
  assert (∀ name, name ∈ dev_files →
            DataProcessor._read_tsv fs' (path_join dir name)
            = DataProcessor._read_tsv fs (path_join dir name)) as Hread.
  { intros name Hname. unfold DataProcessor._read_tsv. by rewrite Hfs. }
  destruct Hp as [ -> | [ -> | -> ] ]; cbn [get_dev_examples ColaProcessor.new
    DumbProcessorClean.new DumbProcessor.new];
    unfold ColaProcessor.get_dev_examples, DumbProcessorClean.get_dev_examples,
           DumbProcessor.get_dev_examples;
    rewrite Hread; try done; unfold dev_files; set_solver.
Qed.

(** C8. With the legacy-loader flag set, [load_and_cache_examples] takes
    the branch of the dev split for every argument configuration: the name
    [evaluate] in the condition [not evaluate] denotes the module-level
    function, which is true, so the examples are those of
    [get_dev_examples]; and the result is the same on any two file systems
    that agree on the dev files of the data directory, whatever they hold
    for the train split. *)
Theorem load_legacy_reads_dev_split fs args tok ambiguity_fn task_name :
  old_load args = true →
  truth evaluate_name = true
  ∧ load_and_cache_examples fs args tok ambiguity_fn task_name
    = (processor ← dict_getitem processors task_name;
       examples ← get_dev_examples processor fs (data_dir args);
       features ← convert_examples_new examples (get_labels processor)
                    (max_seq_length args) tok;
       legacy_tensors features)
  ∧ ∀ fs' : filesystem,
      (∀ name, name ∈ dev_files →
         fs' (path_join (data_dir args) name) = fs (path_join (data_dir args) name)) →
      load_and_cache_examples fs' args tok ambiguity_fn task_name
      = load_and_cache_examples fs args tok ambiguity_fn task_name.
Proof.
  intros Hold. split; [reflexivity|].
  assert (∀ fs0, load_and_cache_examples fs0 args tok ambiguity_fn task_name
    = (processor ← dict_getitem processors task_name;
       examples ← get_dev_examples processor fs0 (data_dir args);
       features ← convert_examples_new examples (get_labels processor)
                    (max_seq_length args) tok;
       legacy_tensors features)) as Hdev.
  { intros fs0. unfold load_and_cache_examples. by rewrite Hold. }
  split; [apply Hdev|].
  intros fs' Hfs. rewrite !Hdev. unfold dict_getitem.
  destruct (processors !! task_name) as [p|] eqn:Hp; [|done].
  cbn [mbind result_bind].
  by rewrite (get_dev_examples_dev_files fs fs' _ p (processors_lookup _ _ Hp) Hfs).
Qed.

End EvaluationProperties.

(** ** Selection of the task variant *)

Lemma contains_unfold (sub s : string) :
  contains sub s
  = String.prefix sub s ||
    match s with
    | EmptyString => false
    | String _ s' => contains sub s'
    end.
Proof. by destruct s. Qed.

Lemma prefix_new_clean_new (s : string) :
  String.prefix "new_clean" s = true → String.prefix "new" s = true.
Proof.
  destruct s as [|c1 [|c2 [|c3 s]]]; cbn [String.prefix]; try done;
    repeat (destruct (Ascii.ascii_dec _ _); try done).
  intros _. by destruct s.
Qed.

(** Every path that contains "new_clean" contains "new". *)
Lemma contains_new_clean_new (w : string) :
  contains "new_clean" w = true → contains "new" w = true.
Proof.
  induction w as [|c w IH]; rewrite (contains_unfold "new_clean"),
    (contains_unfold "new"); intros [Hp|Hc]%orb_true_iff; apply orb_true_iff.
  - left. by apply prefix_new_clean_new.
  - done.
  - left. by apply prefix_new_clean_new.
  - right. by apply IH.
Qed.

(** C10. The task variant and the ambiguity function are functions of the
    model_weights path alone: two argument records with the same
    model_weights select the same pair, whatever their data directories. A
    path that contains "new_clean" (and therefore also "new") selects
    "new_clean"; a path that contains "new" but not "new_clean" selects
    "new"; a path that does not contain "new" selects "old". The ambiguity
    function is "csi" for a path that contains "_csi_"; otherwise "wn" for
    one that contains "_wn_"; otherwise "tf-idf" for one that contains
    "_tf-idf_"; otherwise "none". *)
Theorem select_task_name_from_model_weights (args : Args) :
  (contains "new_clean" (model_weights args) = true →
     contains "new" (model_weights args) = true ∧
     select_task_name args = "new_clean")
  ∧ (contains "new_clean" (model_weights args) = false →
     contains "new" (model_weights args) = true →
     select_task_name args = "new")
  ∧ (contains "new" (model_weights args) = false →
     select_task_name args = "old")
  ∧ (∀ args', model_weights args' = model_weights args →
       select_task_name args' = select_task_name args ∧
       select_ambiguity_fn args' = select_ambiguity_fn args)
  ∧ (contains "_csi_" (model_weights args) = true →
     select_ambiguity_fn args = "csi")
  ∧ (contains "_csi_" (model_weights args) = false →
     contains "_wn_" (model_weights args) = true →
     select_ambiguity_fn args = "wn")
  ∧ (contains "_csi_" (model_weights args) = false →
     contains "_wn_" (model_weights args) = false →
     contains "_tf-idf_" (model_weights args) = true →
     select_ambiguity_fn args = "tf-idf")
  ∧ (contains "_csi_" (model_weights args) = false →
     contains "_wn_" (model_weights args) = false →
     contains "_tf-idf_" (model_weights args) = false →
     select_ambiguity_fn args = "none").
Proof.
  unfold select_task_name, select_ambiguity_fn. split_and!.
  - intros Hnc. split; [by apply contains_new_clean_new | by rewrite Hnc].
  - intros Hnc Hn. by rewrite Hnc, Hn.
  - intros Hn.
    destruct (contains "new_clean" (model_weights args)) eqn:Hnc.
    + apply contains_new_clean_new in Hnc. congruence.
    + by rewrite Hn.
  - intros args' ->. done.
  - intros Hcsi. by rewrite Hcsi.
  - intros Hcsi Hwn. by rewrite Hcsi, Hwn.
  - intros Hcsi Hwn Htf. by rewrite Hcsi, Hwn, Htf.
  - intros Hcsi Hwn Htf. by rewrite Hcsi, Hwn, Htf.
Qed.

(** * The properties on the concrete instance *)

#[local] Existing Instance Test.collaborators.

Lemma test_model_keeps_contract : model_ok Test.model.
Proof.
  intros inputs labels Hlabels. unfold Test.model. rewrite Hlabels. cbn.
  split; [by rewrite length_fmap|].
  apply Forall_fmap, Forall_true. done.
Qed.

Lemma test_model_batch_invariant : batch_invariant Test.model.
Proof.
  intros inputs b k. unfold Test.model. rewrite lookup_fmap. cbn [snd].
  destruct (inputs !! "labels") as [labels|]; cbn.
  - unfold batch_slice. by rewrite fmap_take, fmap_drop.
  - unfold batch_slice. by rewrite drop_nil, take_nil.
Qed.

Example ex_create :
  ColaProcessor._create_examples Test.dev_rows "dev"
  = Ok [mkInputExample "dev-0" "a pun" None (Some "1");
        mkInputExample "dev-1" "a fact" None (Some "0");
        mkInputExample "dev-2" "a joke" None (Some "1")].
Proof. reflexivity. Qed.

Example ex_create_short :
  DumbProcessor._create_examples [["a";"1";"c";"joke"]; ["x";"0";"z"]] "dev"
  = Err IndexError.
Proof. reflexivity. Qed.

Example ex_sst2_skips_header :
  Sst2Processor._create_examples [["sentence";"label"]; ["fine";"1"]] "dev"
  = Ok [mkInputExample "dev-1" "fine" None (Some "1")].
Proof. reflexivity. Qed.

Example ex_processors : get_labels <$> processors !! "new" = Some ["0"; "1"].
Proof. reflexivity. Qed.

Example ex_path_join :
  path_join "data/amb" "dev.tsv" = "data/amb/dev.tsv"
  ∧ path_join "data/amb/" "dev.tsv" = "data/amb/dev.tsv"
  ∧ path_join "" "dev.tsv" = "dev.tsv".
Proof. by vm_compute. Qed.

Example ex_contains :
  contains "baseline_" "data/baseline_old" = true
  ∧ contains "baseline_" "data/amb" = false
  ∧ contains "" "" = true.
Proof. by vm_compute. Qed.

(** Three rows in batches of two: two batches, of two rows and of one row.
    The losses 2 and 1 are divided by 2, the two correct rows by 3. *)
Example ex_evaluate_baseline :
  evaluate Test.fs Test.args_baseline Test.model Test.tok "none" "old"
  = Ok (((inject_Z 0 + inject_Z 2 + inject_Z 1) / inject_Z 2)%Q,
        (inject_Z 2 / inject_Z 3)%Q,
        (inject_Z 4 / inject_Z 5)%Q).
Proof. by vm_compute. Qed.

Example ex_evaluate_one_batch :
  evaluate Test.fs (set_eval_batch_size Test.args_extended 3) Test.model Test.tok
           "wn" "new_clean"
  = Ok (((inject_Z 0 + inject_Z 3) / inject_Z 1)%Q,
        (inject_Z 2 / inject_Z 3)%Q,
        (inject_Z 4 / inject_Z 5)%Q).
Proof. by vm_compute. Qed.

Example ex_evaluate_legacy :
  evaluate Test.fs Test.args_legacy Test.model Test.tok "wn" "old" = Err IndexError.
Proof. by vm_compute. Qed.

Example ex_evaluate_empty :
  evaluate Test.fs Test.args_empty Test.model Test.tok "wn" "new" = Err AxisError.
Proof. by vm_compute. Qed.

Example ex_evaluate_batch_size_zero :
  evaluate Test.fs (set_eval_batch_size Test.args_extended 0) Test.model Test.tok
           "wn" "new_clean"
  = Err ValueError.
Proof. by vm_compute. Qed.

Lemma evaluate_accuracy_batch_size_witness :
  ((∀ b, (0 < b)%Z →
     ∃ batches,
       DataLoader (Test.dataset_of Test.args_extended) b = Ok batches ∧
       returned_accuracy
         (evaluate Test.fs (set_eval_batch_size Test.args_extended b) Test.model
                   Test.tok "wn" "old")
       = Some (float_div
                 (of_int (count_correct
                            (concat (batch_logits Test.args_extended Test.model
                                       <$> batches))
                            (Test.dataset_of Test.args_extended !!! 3)))
                 (of_int (Z.of_nat 3))))
  ∧ (batch_invariant Test.model →
     (∀ b, (0 < b)%Z →
        returned_accuracy
          (evaluate Test.fs (set_eval_batch_size Test.args_extended b) Test.model
                    Test.tok "wn" "old")
        = Some (float_div
                  (of_int (count_correct
                             (Test.model (inputs_of Test.args_extended
                                            (Test.dataset_of Test.args_extended))).2
                             (Test.dataset_of Test.args_extended !!! 3)))
                  (of_int (Z.of_nat 3))))
     ∧ returned_accuracy
         (evaluate Test.fs (set_eval_batch_size Test.args_extended 1) Test.model
                   Test.tok "wn" "old")
       = returned_accuracy
           (evaluate Test.fs (set_eval_batch_size Test.args_extended (Z.of_nat 3))
                     Test.model Test.tok "wn" "old")))
  ∧ returned_accuracy
      (evaluate Test.fs (set_eval_batch_size Test.args_extended 1) Test.model
                Test.tok "wn" "old")
    = Some (2 # 3)%Q
  ∧ returned_accuracy
      (evaluate Test.fs (set_eval_batch_size Test.args_extended 2) Test.model
                Test.tok "wn" "old")
    = Some (2 # 3)%Q.
Proof.
  split.
  - apply (evaluate_accuracy_batch_size Test.fs Test.args_extended Test.model
             Test.tok "wn" "old" (Test.dataset_of Test.args_extended) 3).
    + vm_compute. reflexivity.
    + vm_compute. discriminate.
    + vm_compute. reflexivity.
    + lia.
    + apply test_model_keeps_contract.
  - split; vm_compute; reflexivity.
Defined.

Lemma evaluate_loss_over_batches_witness :
  ∃ batches f1,
    DataLoader (Test.dataset_of Test.args_baseline) 2 = Ok batches ∧
    length batches = num_batches 3 2 ∧
    0 < length batches ∧
    evaluate Test.fs Test.args_baseline Test.model Test.tok "none" "old"
    = Ok (float_div
            (fold_left float_add (batch_loss Test.args_baseline Test.model <$> batches)
                       (of_int 0))
            (of_int (Z.of_nat (length batches))),
          float_div
            (of_int (count_correct
                       (concat (batch_logits Test.args_baseline Test.model <$> batches))
                       (Test.dataset_of Test.args_baseline !!! 3)))
            (of_int (Z.of_nat 3)),
          f1).
Proof.
  apply (evaluate_loss_over_batches Test.fs Test.args_baseline Test.model Test.tok
           "none" "old" (Test.dataset_of Test.args_baseline) 3).
  - vm_compute. reflexivity.
  - intros _. vm_compute. reflexivity.
  - vm_compute. reflexivity.
  - lia.
  - vm_compute. reflexivity.
  - apply test_model_keeps_contract.
Defined.

Lemma eval_loop_keeps_row_order_witness :
  ∃ batches st,
    DataLoader (Test.dataset_of Test.args_extended) 2 = Ok batches ∧
    (∀ k batch, batches !! k = Some batch →
       batch = batch_slice 2 k <$> Test.dataset_of Test.args_extended) ∧
    (∀ j, j < length (Test.dataset_of Test.args_extended) →
       concat ((λ batch : list tensor, batch !!! j) <$> batches)
       = Test.dataset_of Test.args_extended !!! j) ∧
    eval_loop Test.args_extended Test.model (Test.dataset_of Test.args_extended)
    = Ok st ∧
    (∀ i, rows_of (full_labels st) !! i
          = (Test.dataset_of Test.args_extended !!! 3) !! i) ∧
    rows_of (full_logits st)
    = concat (batch_logits Test.args_extended Test.model <$> batches) ∧
    length (rows_of (full_logits st)) = 3.
Proof.
  apply (eval_loop_keeps_row_order Test.fs Test.args_extended Test.model Test.tok
           "wn" "new_clean" (Test.dataset_of Test.args_extended) 3).
  - vm_compute. reflexivity.
  - vm_compute. discriminate.
  - vm_compute. reflexivity.
  - vm_compute. reflexivity.
  - apply test_model_keeps_contract.
Defined.

Lemma build_inputs_ambiguity_scores_witness :
  (∃ inputs,
     build_inputs Test.args_baseline (Test.dataset_of Test.args_baseline) = Ok inputs ∧
     inputs !! "ambiguity_scores" = None)
  ∧ (∃ inputs,
       build_inputs Test.args_extended (Test.dataset_of Test.args_extended) = Ok inputs ∧
       inputs !! "ambiguity_scores"
       = Some (Test.dataset_of Test.args_extended !!! 4)).
Proof.
  split.
  - apply (proj1 (@build_inputs_ambiguity_scores Test.collaborators
                    Test.args_baseline (Test.dataset_of Test.args_baseline))).
    + vm_compute. reflexivity.
    + vm_compute. lia.
  - apply (proj1 (proj2 (@build_inputs_ambiguity_scores Test.collaborators
                    Test.args_extended (Test.dataset_of Test.args_extended)))).
    + vm_compute. reflexivity.
    + vm_compute. lia.
Defined.

Lemma evaluate_empty_dataset_witness :
  ∃ e, evaluate Test.fs Test.args_empty Test.model Test.tok "wn" "new" = Err e ∧
       e ≠ ZeroDivisionError ∧
       ((0 < eval_batch_size Test.args_empty)%Z → e = AxisError).
Proof.
  apply (evaluate_empty_dataset Test.fs Test.args_empty Test.model Test.tok "wn" "new"
           (Test.dataset_of Test.args_empty)).
  - vm_compute. reflexivity.
  - vm_compute. reflexivity.
Defined.

Lemma evaluate_legacy_without_baseline_witness :
  length (Test.dataset_of Test.args_legacy) = 4 ∧
  evaluate Test.fs Test.args_legacy Test.model Test.tok "wn" "old" = Err IndexError.
Proof.
  apply (evaluate_legacy_without_baseline Test.fs Test.args_legacy Test.model Test.tok
           "wn" "old" (Test.dataset_of Test.args_legacy) 3).
  - reflexivity.
  - vm_compute. reflexivity.
  - vm_compute. reflexivity.
  - vm_compute. reflexivity.
  - lia.
  - vm_compute. reflexivity.
Defined.

Lemma load_legacy_reads_dev_split_witness :
  truth evaluate_name = true
  ∧ load_and_cache_examples Test.fs Test.args_legacy Test.tok "wn" "old"
    = (processor ← dict_getitem processors "old";
       examples ← get_dev_examples processor Test.fs (data_dir Test.args_legacy);
       features ← convert_examples_new examples (get_labels processor)
                    (max_seq_length Test.args_legacy) Test.tok;
       legacy_tensors features)
  ∧ ∀ fs' : filesystem,
      (∀ name, name ∈ dev_files →
         fs' (path_join (data_dir Test.args_legacy) name)
         = Test.fs (path_join (data_dir Test.args_legacy) name)) →
      load_and_cache_examples fs' Test.args_legacy Test.tok "wn" "old"
      = load_and_cache_examples Test.fs Test.args_legacy Test.tok "wn" "old".
Proof.
  apply (@load_legacy_reads_dev_split Test.collaborators
           Test.fs Test.args_legacy Test.tok "wn" "old").
  reflexivity.
Defined.

(** The legacy loader succeeds where no train file exists at all. *)
Example ex_load_legacy_without_train_file :
  Test.fs (path_join (data_dir Test.args_legacy) "train.tsv") = None
  ∧ load_and_cache_examples Test.fs Test.args_legacy Test.tok "wn" "old"
    = Ok (Test.dataset_of Test.args_legacy)
  ∧ length (Test.dataset_of Test.args_legacy !!! 3) = 3.
Proof. by vm_compute. Qed.

Lemma select_task_name_from_model_weights_witness :
  model_weights Test.args_extended = "models/new_clean_wn_seed1.pt"
  ∧ (contains "new" (model_weights Test.args_extended) = true ∧
     select_task_name Test.args_extended = "new_clean")
  ∧ select_ambiguity_fn Test.args_extended = "wn".
Proof.
  destruct (select_task_name_from_model_weights Test.args_extended)
    as (Hclean & _ & _ & _ & _ & Hwn & _).
  split; [reflexivity|].
  split; [apply Hclean | apply Hwn]; vm_compute; reflexivity.
Defined.

Example ex_select :
  select_task_name Test.args_extended = "new_clean"
  ∧ select_task_name Test.args_empty = "new"
  ∧ select_task_name Test.args_legacy = "old"
  ∧ select_ambiguity_fn Test.args_legacy = "wn"
  ∧ select_ambiguity_fn Test.args_baseline = "none".
Proof. by vm_compute. Qed.

(** * Further properties *)

(** ** Loops over the rows of a file *)

(** A loop whose body appends one element per row. *)
Lemma for_each_rows_ok {A B} (body : list B → nat * A → result (list B))
    (f : nat → A → B) (P : A → Prop) (xs : list A) : ∀ k acc,
  (∀ acc' i x, k ≤ i → P x → body acc' (i, x) = Ok (acc' ++ [f i x])) →
  Forall P xs →
  for_each body (enumerate_from k xs) acc = Ok (acc ++ imap (λ j, f (k + j)) xs).
Proof.
  induction xs as [|x xs IH]; intros k acc Hbody Hall; cbn [enumerate_from for_each].
  - by rewrite app_nil_r.
  - apply Forall_cons in Hall as [Hx Hall].
    rewrite Hbody by done. cbn [mbind result_bind].
    rewrite IH; [|intros; apply Hbody; [lia|done]|done].
    rewrite <- app_assoc. cbn. rewrite Nat.add_0_r. do 3 f_equal.
    apply imap_ext. intros j y _. cbn. f_equal. lia.
Qed.

(** A loop whose body raises on the rows that satisfy [P] and goes on at
    the others raises as soon as one row satisfies [P]. *)
Lemma for_each_rows_err {A S} (body : S → nat * A → result S)
    (P : A → Prop) `{!∀ x, Decision (P x)} (e : exception) (xs : list A) : ∀ k acc,
  (∀ acc' i x, k ≤ i → P x → body acc' (i, x) = Err e) →
  (∀ acc' i x, k ≤ i → ¬ P x → ∃ acc'', body acc' (i, x) = Ok acc'') →
  Exists P xs →
  for_each body (enumerate_from k xs) acc = Err e.
Proof.
  induction xs as [|x xs IH]; intros k acc Hbad Hgood Hex.
  - by apply Exists_nil in Hex.
  - cbn [enumerate_from for_each]. destruct (decide (P x)) as [Hx|Hx].
    + by rewrite Hbad.
    + destruct (Hgood acc k x ltac:(lia) Hx) as [acc'' ->].
      cbn [mbind result_bind]. apply IH.
      * intros; apply Hbad; [lia|done].
      * intros; apply Hgood; [lia|done].
      * apply Exists_cons in Hex as [?|?]; done.
Qed.

(** The loop of the humor processors raises nothing but IndexError. *)
Lemma create_loop_err set_type lines e : ∀ k acc,
  for_each (create_body set_type) (enumerate_from k lines) acc = Err e →
  e = IndexError.
Proof.
  induction lines as [|line lines IH]; intros k acc; cbn [enumerate_from for_each];
    [done|].
  destruct (decide (length line < 4)) as [Hshort|Hlong].
  - rewrite create_body_short by done. by intros [= <-].
  - rewrite create_body_ok by lia. cbn [mbind result_bind]. apply IH.
Qed.

Lemma create_loop_inv set_type lines examples :
  for_each (create_body set_type) (enumerate lines) [] = Ok examples →
  Forall (λ line, 4 ≤ length line) lines ∧
  examples = imap (example_of_row set_type) lines.
Proof.
  intros Hok.
  destruct (decide (Forall (λ line : list string, 4 ≤ length line) lines))
    as [Hall|Hnot].
  - split; [done|]. unfold enumerate in Hok.
    rewrite create_loop_ok in Hok by done. by injection Hok as <-.
  - apply not_Forall_Exists in Hnot; [|apply _].
    unfold enumerate in Hok. rewrite create_loop_short in Hok; [done|].
    eapply Exists_impl; [done|]. cbn. lia.
Qed.

(** ** Identifiers of the examples *)

Lemma str_inj (i j : nat) : str i = str j → i = j.
Proof.
  unfold str. intros Heq. apply DecimalNat.Unsigned.to_uint_inj.
  apply (f_equal NilEmpty.uint_of_string) in Heq.
  rewrite !NilEmpty.usu in Heq. by injection Heq.
Qed.

Lemma append_inj_r (s x y : string) : s +:+ x = s +:+ y → x = y.
Proof. induction s as [|c s IH]; cbn; [done|]. intros [= Heq]. by apply IH. Qed.

Lemma fmt_dash_inj (set_type : string) (i j : nat) :
  fmt_dash set_type (str i) = fmt_dash set_type (str j) → i = j.
Proof.
  unfold fmt_dash. intros Heq. apply append_inj_r in Heq.
  apply (append_inj_r "-") in Heq. by apply str_inj.
Qed.

(** X1. Whenever [_create_examples] of one of the processors "old",
    "new_clean" and "new" returns, the ids of the examples are pairwise
    distinct. *)
Theorem create_examples_guids_distinct create (lines : list (list string))
    (set_type : string) (examples : list InputExample) :
  create ∈ humor_creators →
  create lines set_type = Ok examples →
  NoDup (guid <$> examples).
Proof.
  intros Hin Hok. rewrite (humor_creators_body create Hin) in Hok.
  apply create_loop_inv in Hok as [_ ->].
  rewrite fmap_imap.
  rewrite (imap_ext _ (λ i _, fmt_dash set_type (str i))) by done.
  rewrite imap_seq_0. apply NoDup_fmap_2_strong; [|apply NoDup_seq].
  intros i j _ _. apply fmt_dash_inj.
Qed.

Lemma create_examples_guids_distinct_witness :
  NoDup (guid <$> [mkInputExample "dev-0" "a pun" None (Some "1");
                   mkInputExample "dev-1" "a fact" None (Some "0");
                   mkInputExample "dev-2" "a joke" None (Some "1")]).
Proof.
  apply (create_examples_guids_distinct DumbProcessorClean._create_examples
           Test.dev_rows "dev").
  - unfold humor_creators. apply list_elem_of_further, list_elem_of_here.
  - reflexivity.
Defined.

(** ** Missing files *)

(** X2. For each of the processors "old", "new_clean" and "new",
    [get_train_examples] raises FileNotFoundError exactly when the train
    file of the processor is absent from the data directory, and
    [get_dev_examples] exactly when its dev file is absent. *)
Theorem get_examples_file_not_found (fs : filesystem) (data_dir : string) :
  Forall (λ entry : Processor * string * string,
      (get_train_examples entry.1.1 fs data_dir = Err FileNotFoundError
       ↔ fs (path_join data_dir entry.1.2) = None)
      ∧ (get_dev_examples entry.1.1 fs data_dir = Err FileNotFoundError
         ↔ fs (path_join data_dir entry.2) = None))
    humor_files.
Proof.
  assert (∀ path set_type,
    (lines ← DataProcessor._read_tsv fs path;
     for_each (create_body set_type) (enumerate lines) [])
    = Err FileNotFoundError ↔ fs path = None) as Hread.
  { intros path set_type. unfold DataProcessor._read_tsv.
    destruct (fs path) as [lines|]; cbn [mbind result_bind]; [|done].
    split; [|done]. intros Herr. by apply create_loop_err in Herr. }
  unfold humor_files. repeat constructor; cbn [fst snd]; apply Hread.
Qed.


(** ** Processors that skip the header *)

Lemma sst2_body_ok set_type examples i row :
  1 ≤ i → 2 ≤ length row →
  (if bool_decide (i = 0) then Ok examples else
   let guid := fmt_dash set_type (str i) in
   text_a ← getitem row 0;
   label ← getitem row 1;
   Ok (examples ++ [mkInputExample guid text_a None (Some label)]))
  = Ok (examples ++ [sst2_example set_type i row]).
Proof.
  intros Hi Hlen. rewrite bool_decide_eq_false_2 by lia. cbn zeta.
  rewrite (getitem_lt row 0); [|lia]. rewrite (getitem_lt row 1); [|lia].
  reflexivity.
Qed.

(** X3. The SST-2 processor never looks at row 0: whatever the first row
    holds, even no cell at all, rows of at least two columns after it give
    one example per row in row order, the example of file row [i] with id
    "<split>-<i>", its text from column 0 and its label from column 1. *)
Theorem sst2_create_examples_skips_header (header : list string)
    (rows : list (list string)) (set_type : string) :
  Forall (λ row, 2 ≤ length row) rows →
  Sst2Processor._create_examples (header :: rows) set_type
  = Ok (imap (λ j, sst2_example set_type (S j)) rows).
Proof.
  intros Hrows. unfold Sst2Processor._create_examples, enumerate.
  cbn [enumerate_from for_each]. rewrite bool_decide_eq_true_2 by done.
  cbn [mbind result_bind].
  erewrite (for_each_rows_ok _ (sst2_example set_type)
              (λ row, 2 ≤ length row) rows 1 []); [done| |done].
  intros acc i row Hi Hlen. by apply sst2_body_ok.
Qed.

Lemma sst2_create_examples_skips_header_witness :
  Sst2Processor._create_examples [[]; ["fine"; "1"]; ["dull"; "0"; "x"]] "dev"
  = Ok [mkInputExample "dev-1" "fine" None (Some "1");
        mkInputExample "dev-2" "dull" None (Some "0")].
Proof.
  apply (sst2_create_examples_skips_header [] [["fine"; "1"]; ["dull"; "0"; "x"]] "dev").
  repeat constructor.
Defined.

Lemma getitem_last_nonempty {A} `{Inhabited A} (l : list A) (d : A) :
  0 < length l → getitem_last l = Ok (default d (last l)).
Proof.
  intros Hlen. unfold getitem_last. destruct (last l) eqn:Hlast; [done|].
  apply last_None in Hlast as ->. cbn in Hlen. lia.
Qed.

Lemma mnli_body_ok set_type examples i row :
  1 ≤ i → 10 ≤ length row →
  (if bool_decide (i = 0) then Ok examples else
   id ← getitem row 0;
   let guid := fmt_dash set_type id in
   text_a ← getitem row 8;
   text_b ← getitem row 9;
   label ← getitem_last row;
   Ok (examples ++ [mkInputExample guid text_a (Some text_b) (Some label)]))
  = Ok (examples ++ [mnli_example set_type row]).
Proof.
  intros Hi Hlen. rewrite bool_decide_eq_false_2 by lia.
  rewrite (getitem_lt row 0); [|lia]. cbn [mbind result_bind]. cbn zeta.
  rewrite (getitem_lt row 8); [|lia]. rewrite (getitem_lt row 9); [|lia].
  rewrite (getitem_last_nonempty row ""); [|lia]. reflexivity.
Qed.

Lemma mnli_body_short set_type examples i row :
  1 ≤ i → length row < 10 →
  (if bool_decide (i = 0) then Ok examples else
   id ← getitem row 0;
   let guid := fmt_dash set_type id in
   text_a ← getitem row 8;
   text_b ← getitem row 9;
   label ← getitem_last row;
   Ok (examples ++ [mkInputExample guid text_a (Some text_b) (Some label)]))
  = Err IndexError.
Proof.
  intros Hi Hlen. rewrite bool_decide_eq_false_2 by lia. unfold getitem.
  destruct (row !! 0); [|done]. cbn [mbind result_bind]. cbn zeta.
  destruct (row !! 8); [|done]. cbn [mbind result_bind].
  by rewrite (lookup_ge_None_2 row 9) by lia.
Qed.

(** X4. The NLI-style processor skips row 0, whatever it holds, and makes
    of every later row of at least ten columns a sentence pair: the id is
    "<split>-" followed by the cell of column 0 (not the row index), the
    two texts are the cells of columns 8 and 9, the label is the last cell
    of the row. *)
Theorem mnli_create_examples_pairs (header : list string)
    (rows : list (list string)) (set_type : string) :
  Forall (λ row, 10 ≤ length row) rows →
  MnliProcessor._create_examples (header :: rows) set_type
  = Ok (mnli_example set_type <$> rows).
Proof.
  intros Hrows. unfold MnliProcessor._create_examples, enumerate.
  cbn [enumerate_from for_each]. rewrite bool_decide_eq_true_2 by done.
  cbn [mbind result_bind].
  erewrite (for_each_rows_ok _ (λ _, mnli_example set_type)
              (λ row, 10 ≤ length row) rows 1 []); [|  |done].
  - cbn [app]. by rewrite <- (imap_const (mnli_example set_type)).
  - intros acc i row Hi Hlen. by apply mnli_body_ok.
Qed.

Lemma mnli_create_examples_pairs_witness :
  MnliProcessor._create_examples
    [["index"];
     ["7"; "a"; "b"; "c"; "d"; "e"; "f"; "g"; "it rains"; "it is wet"; "x"; "entailment"]]
    "dev_matched"
  = Ok [mkInputExample "dev_matched-7" "it rains" (Some "it is wet")
                       (Some "entailment")].
Proof.
  apply (mnli_create_examples_pairs ["index"]
    [["7"; "a"; "b"; "c"; "d"; "e"; "f"; "g"; "it rains"; "it is wet"; "x"; "entailment"]]
    "dev_matched").
  repeat constructor.
Defined.

(** X5. The NLI-style processor raises IndexError as soon as one row after
    row 0 has fewer than ten columns; a short row 0 alone does no harm. *)
Theorem mnli_create_examples_short_row (header : list string)
    (rows : list (list string)) (set_type : string) :
  Exists (λ row, length row < 10) rows →
  MnliProcessor._create_examples (header :: rows) set_type = Err IndexError.
Proof.
  intros Hshort. unfold MnliProcessor._create_examples, enumerate.
  cbn [enumerate_from for_each]. rewrite bool_decide_eq_true_2 by done.
  cbn [mbind result_bind].
  apply (for_each_rows_err _ (λ row, length row < 10)); [| |done].
  - intros acc i row Hi Hlen. by apply mnli_body_short.
  - intros acc i row Hi Hlen. eexists. apply mnli_body_ok; [done|lia].
Qed.

Lemma mnli_create_examples_short_row_witness :
  MnliProcessor._create_examples
    [["index"]; ["7"; "a"; "b"; "c"; "d"; "e"; "f"; "g"; "it rains"]] "train"
  = Err IndexError.
Proof.
  apply (mnli_create_examples_short_row ["index"]
           [["7"; "a"; "b"; "c"; "d"; "e"; "f"; "g"; "it rains"]] "train").
  apply Exists_cons_hd. cbn. lia.
Defined.


(** ** Assembly of the dataset *)

Lemma int64_ok_range (z : Z) : int64_ok z = true ↔ int64_range z.
Proof.
  unfold int64_ok, int64_range.
  change (2 ^ 63)%Z with 9223372036854775808%Z.
  rewrite andb_true_iff, Z.leb_le, Z.ltb_lt. done.
Qed.

Lemma forallb_int64_ok (xs : list Z) :
  forallb int64_ok xs = true ↔ Forall int64_range xs.
Proof.
  rewrite forallb_forall, Forall_forall. split; intros Hall z Hz.
  - apply int64_ok_range, Hall. by apply list_elem_of_In.
  - apply int64_ok_range, Hall. by apply list_elem_of_In.
Qed.

Lemma torch_tensor_1d_inv xs t :
  torch_tensor_1d xs = Ok t → t = Scalar <$> xs ∧ Forall int64_range xs.
Proof.
  unfold torch_tensor_1d. destruct (forallb int64_ok xs) eqn:Hall; [|done].
  intros [= <-]. split; [done|]. by apply forallb_int64_ok.
Qed.

Lemma torch_tensor_1d_ok xs :
  Forall int64_range xs → torch_tensor_1d xs = Ok (Scalar <$> xs).
Proof.
  intros Hall. unfold torch_tensor_1d.
  by rewrite (proj2 (forallb_int64_ok xs) Hall).
Qed.

Lemma torch_tensor_1d_err xs e :
  torch_tensor_1d xs = Err e → e = RuntimeError ∧ ¬ Forall int64_range xs.
Proof.
  unfold torch_tensor_1d. destruct (forallb int64_ok xs) eqn:Hall; [done|].
  intros [= <-]. split; [done|]. intros Hr%forallb_int64_ok. congruence.
Qed.

Lemma store_rows_inv width rows : ∀ t,
  store_rows width rows = Ok t →
  t = Vector <$> rows ∧ Forall (λ r, length r = width) rows ∧
  Forall (Forall int64_range) rows.
Proof.
  induction rows as [|row rows IH]; intros t; cbn [store_rows].
  - intros [= <-]. by split_and!.
  - destruct (Nat.eqb (length row) width) eqn:Hlen; [|done]. cbn [negb].
    destruct (forallb int64_ok row) eqn:Hrow; [|done]. cbn [negb].
    destruct (store_rows width rows) as [t'|]; [|done]. cbn [mbind result_bind].
    intros [= <-]. destruct (IH t' eq_refl) as (-> & Hw & Hr).
    apply Nat.eqb_eq in Hlen. apply forallb_int64_ok in Hrow.
    split_and!; [done | by constructor | by constructor].
Qed.

Lemma store_rows_ok width rows :
  Forall (λ r, length r = width) rows → Forall (Forall int64_range) rows →
  store_rows width rows = Ok (Vector <$> rows).
Proof.
  induction rows as [|row rows IH]; intros Hw Hr; [done|].
  apply Forall_cons in Hw as [Hlen Hw]. apply Forall_cons in Hr as [Hrow Hr].
  cbn [store_rows]. rewrite (proj2 (Nat.eqb_eq _ _) Hlen).
  rewrite (proj2 (forallb_int64_ok row) Hrow). cbn [negb].
  by rewrite IH.
Qed.

Lemma store_rows_err width rows e :
  store_rows width rows = Err e →
  (e = ValueError ∨ e = RuntimeError) ∧
  (Forall (Forall int64_range) rows → e = ValueError).
Proof.
  induction rows as [|row rows IH]; cbn [store_rows]; [done|].
  destruct (Nat.eqb (length row) width); cbn [negb];
    [|intros [= <-]; split; [by left | done]].
  destruct (forallb int64_ok row) eqn:Hrow; cbn [negb].
  - destruct (store_rows width rows) as [t'|e']; [done|]. cbn [mbind result_bind].
    intros [= <-]. destruct (IH eq_refl) as [Hor Hval]. split; [done|].
    intros Hr. apply Forall_cons in Hr as [_ Hr]. by apply Hval.
  - intros [= <-]. split; [by right|].
    intros Hr. apply Forall_cons in Hr as [Hr _].
    apply forallb_int64_ok in Hr. congruence.
Qed.

Lemma same_width_first (r : list Z) (rows : list (list Z)) :
  same_width id (r :: rows) ↔ Forall (λ r', length r' = length r) (r :: rows).
Proof.
  unfold same_width. rewrite Forall_forall. split.
  - intros Hw f Hf. apply (Hw f r); [done | apply list_elem_of_here].
  - intros Hall f g Hf Hg. cbn. by rewrite (Hall f Hf), (Hall g Hg).
Qed.

Lemma torch_tensor_2d_inv rows t :
  torch_tensor_2d rows = Ok t →
  t = Vector <$> rows ∧ same_width id rows ∧ Forall (Forall int64_range) rows.
Proof.
  unfold torch_tensor_2d. destruct rows as [|r rows].
  - intros [= <-]. split_and!; [done| |done].
    intros f g Hf. by apply elem_of_nil in Hf.
  - intros (-> & Hw & Hr)%store_rows_inv. split_and!; [done| |done].
    by apply same_width_first.
Qed.

Lemma torch_tensor_2d_ok rows :
  same_width id rows → Forall (Forall int64_range) rows →
  torch_tensor_2d rows = Ok (Vector <$> rows).
Proof.
  unfold torch_tensor_2d. intros Hw Hr. destruct rows as [|r rows]; [done|].
  apply store_rows_ok; [|done]. by apply same_width_first.
Qed.

Lemma torch_tensor_2d_err rows e :
  torch_tensor_2d rows = Err e →
  (e = ValueError ∨ e = RuntimeError) ∧
  (Forall (Forall int64_range) rows → e = ValueError).
Proof.
  unfold torch_tensor_2d. destruct rows as [|r rows]; [done|].
  apply store_rows_err.
Qed.

Lemma same_width_fmap {A} (field : A → list Z) (features : list A) :
  same_width id (field <$> features) ↔ same_width field features.
Proof.
  unfold same_width. split.
  - intros Hw f g Hf Hg. apply (Hw (field f) (field g)); by apply list_elem_of_fmap_2.
  - intros Hw r r' [f [-> Hf]]%list_elem_of_fmap [g [-> Hg]]%list_elem_of_fmap.
    by apply Hw.
Qed.

Lemma TensorDataset_same_rows (tensors : list tensor) n :
  Forall (λ t : tensor, length t = n) tensors → TensorDataset tensors = Ok tensors.
Proof.
  intros Hrows. unfold TensorDataset. destruct tensors as [|t0 ts]; [done|].
  assert (forallb (λ t : tensor, Nat.eqb (length t) (length t0)) (t0 :: ts) = true)
    as ->; [|done].
  apply forallb_forall. intros t Ht%list_elem_of_In. apply Nat.eqb_eq.
  apply Forall_cons in Hrows as Hrows'. destruct Hrows' as [-> _].
  by apply (proj1 (Forall_forall _ _) Hrows).
Qed.

(** X6. The legacy assembler returns a dataset exactly for features that
    can be stacked (within each of the fields input_ids, input_mask and
    segment_ids all features have one length) and whose numbers all fit a
    64-bit signed integer; the dataset is then the four tensors ids, mask,
    segment ids, labels, whose row [i] holds the fields of feature [i]. *)
Theorem legacy_tensors_rows (features : list InputFeatures) (dataset : list tensor) :
  legacy_tensors features = Ok dataset
  ↔ rectangular features ∧ features_in_range features ∧
    dataset = [Vector <$> (input_ids <$> features);
               Vector <$> (input_mask <$> features);
               Vector <$> (segment_ids <$> features);
               Scalar <$> (label_id <$> features)].
Proof.
  unfold legacy_tensors, rectangular, features_in_range. split.
  - intros Hds.
    destruct (torch_tensor_2d (input_ids <$> features)) as [t0|] eqn:H0; [|done].
    destruct (torch_tensor_2d (input_mask <$> features)) as [t1|] eqn:H1; [|done].
    destruct (torch_tensor_2d (segment_ids <$> features)) as [t2|] eqn:H2; [|done].
    destruct (torch_tensor_1d (label_id <$> features)) as [t3|] eqn:H3; [|done].
    cbn [mbind result_bind] in Hds. apply TensorDataset_inv in Hds as ->.
    apply torch_tensor_2d_inv in H0 as (-> & H0 & R0), H1 as (-> & H1 & R1),
      H2 as (-> & H2 & R2).
    apply torch_tensor_1d_inv in H3 as [-> R3].
    by rewrite same_width_fmap in H0, H1, H2.
  - intros [(H0 & H1 & H2) [(R0 & R1 & R2 & R3) ->]].
    rewrite !torch_tensor_2d_ok by (done || by apply same_width_fmap).
    rewrite torch_tensor_1d_ok by done.
    cbn [mbind result_bind].
    apply (TensorDataset_same_rows _ (length features)).
    repeat constructor; by rewrite !length_fmap.
Qed.

(** What the legacy assembler raises is ValueError or RuntimeError, and
    ValueError when every number fits 64 bits. *)
Lemma legacy_tensors_err (features : list InputFeatures) e :
  legacy_tensors features = Err e →
  (e = ValueError ∨ e = RuntimeError) ∧
  (features_in_range features → e = ValueError).
Proof.
  unfold legacy_tensors, features_in_range. intros Hds.
  destruct (torch_tensor_2d (input_ids <$> features)) as [t0|e0] eqn:H0.
  2: { injection Hds as <-. apply torch_tensor_2d_err in H0 as [Hor Hval].
       split; [done|]. intros (R0 & _). by apply Hval. }
  destruct (torch_tensor_2d (input_mask <$> features)) as [t1|e1] eqn:H1.
  2: { injection Hds as <-. apply torch_tensor_2d_err in H1 as [Hor Hval].
       split; [done|]. intros (_ & R1 & _). by apply Hval. }
  destruct (torch_tensor_2d (segment_ids <$> features)) as [t2|e2] eqn:H2.
  2: { injection Hds as <-. apply torch_tensor_2d_err in H2 as [Hor Hval].
       split; [done|]. intros (_ & _ & R2 & _). by apply Hval. }
  destruct (torch_tensor_1d (label_id <$> features)) as [t3|e3] eqn:H3.
  2: { injection Hds as <-. apply torch_tensor_1d_err in H3 as [-> Hnot].
       split; [by right|]. by intros (_ & _ & _ & R3). }
  cbn [mbind result_bind] in Hds.
  apply torch_tensor_2d_length in H0, H1, H2. apply torch_tensor_1d_length in H3.
  rewrite length_fmap in H0, H1, H2. rewrite length_fmap in H3.
  rewrite (TensorDataset_same_rows _ (length features)) in Hds; [done|].
  by repeat constructor.
Qed.

(** X7. Features that cannot be stacked are refused when the dataset is
    assembled, before [TensorDataset] is reached: for features that are not
    rectangular the legacy assembler raises, ValueError when every number of
    the features fits a 64-bit signed integer, and otherwise ValueError or
    the RuntimeError of an overflowing number, whichever the rows meet
    first; never AssertionError. *)
Theorem legacy_tensors_ragged (features : list InputFeatures) :
  ¬ rectangular features →
  (∃ e, legacy_tensors features = Err e ∧ (e = ValueError ∨ e = RuntimeError))
  ∧ (features_in_range features → legacy_tensors features = Err ValueError).
Proof.
  intros Hnot. destruct (legacy_tensors features) as [dataset|e] eqn:Hds.
  - apply legacy_tensors_rows in Hds as [Hrect _]. done.
  - destruct (legacy_tensors_err features e Hds) as [Hor Hval]. split.
    + by exists e.
    + intros Hr. by rewrite (Hval Hr).
Qed.

Lemma legacy_tensors_ragged_witness :
  legacy_tensors [mkInputFeatures [101; 7; 102]%Z [1; 1; 1]%Z [0; 0; 0]%Z 1;
                  mkInputFeatures [101; 102]%Z [1; 1]%Z [0; 0]%Z 0]
  = Err ValueError.
Proof.
  refine (proj2 (legacy_tensors_ragged
    [mkInputFeatures [101; 7; 102]%Z [1; 1; 1]%Z [0; 0; 0]%Z 1;
     mkInputFeatures [101; 102]%Z [1; 1]%Z [0; 0]%Z 0] _) _).
  - intros [Hids _].
    specialize (Hids (mkInputFeatures [101; 7; 102]%Z [1; 1; 1]%Z [0; 0; 0]%Z 1)
                     (mkInputFeatures [101; 102]%Z [1; 1]%Z [0; 0]%Z 0)).
    cbn in Hids. assert (3 = 2) as Habs; [|lia].
    apply Hids; [apply list_elem_of_here | apply list_elem_of_further, list_elem_of_here].
  - unfold features_in_range, int64_range. cbn.
    split_and!; repeat constructor; lia.
Defined.

Section FurtherEvaluationProperties.
Context `{Collaborators}.

Lemma extended_tensors_inv (features : list AmbiguityFeatures) (dataset : list tensor) :
  extended_tensors features = Ok dataset →
  dataset = [Vector <$> (f_input_ids <$> features);
             Vector <$> (f_input_mask <$> features);
             Vector <$> (f_segment_ids <$> features);
             Scalar <$> (f_label_id <$> features);
             Scalar <$> (f_ambiguity <$> features)].
Proof.
  unfold extended_tensors. intros Hds.
  destruct (torch_tensor_2d (f_input_ids <$> features)) as [t0|] eqn:H0; [|done].
  destruct (torch_tensor_2d (f_input_mask <$> features)) as [t1|] eqn:H1; [|done].
  destruct (torch_tensor_2d (f_segment_ids <$> features)) as [t2|] eqn:H2; [|done].
  destruct (torch_tensor_1d (f_ambiguity <$> features)) as [t4|] eqn:H4; [|done].
  destruct (torch_tensor_1d (f_label_id <$> features)) as [t3|] eqn:H3; [|done].
  cbn [mbind result_bind] in Hds. apply TensorDataset_inv in Hds as ->.
  apply torch_tensor_2d_inv in H0 as [-> _], H1 as [-> _], H2 as [-> _].
  by apply torch_tensor_1d_inv in H3 as [-> _], H4 as [-> _].
Qed.

Lemma batch_slice_fmap {A B} (f : A → B) b k (l : list A) :
  batch_slice b k (f <$> l) = f <$> batch_slice b k l.
Proof. unfold batch_slice. by rewrite fmap_take, fmap_drop. Qed.

(** X8. The field order of the extended assembler is the one the evaluator
    reads. For features assembled by the extended strategy and a data
    directory without "baseline_", the bundle of every batch of the loader
    carries, for the features of that batch, their token ids as input_ids,
    their masks as attention_mask, their segment ids as token_type_ids,
    their label ids as labels and their ambiguity scores as
    ambiguity_scores. *)
Theorem extended_batch_inputs args (features : list AmbiguityFeatures)
    (dataset : list tensor) (b k : nat) :
  extended_tensors features = Ok dataset →
  contains "baseline_" (data_dir args) = false →
  ∃ inputs,
    build_inputs args (batch_slice b k <$> dataset) = Ok inputs ∧
    inputs !! "input_ids"
    = Some (Vector <$> (f_input_ids <$> batch_slice b k features)) ∧
    inputs !! "attention_mask"
    = Some (Vector <$> (f_input_mask <$> batch_slice b k features)) ∧
    inputs !! "token_type_ids"
    = Some (Vector <$> (f_segment_ids <$> batch_slice b k features)) ∧
    inputs !! "labels"
    = Some (Scalar <$> (f_label_id <$> batch_slice b k features)) ∧
    inputs !! "ambiguity_scores"
    = Some (Scalar <$> (f_ambiguity <$> batch_slice b k features)).
Proof.
  intros ->%extended_tensors_inv Hbase.
  eexists. split.
  - unfold build_inputs. rewrite Hbase. reflexivity.
  - rewrite <- !batch_slice_fmap.
    split_and!.
    + do 4 (rewrite lookup_insert_ne by done). by rewrite lookup_insert_eq.
    + do 2 (rewrite lookup_insert_ne by done). by rewrite lookup_insert_eq.
    + do 3 (rewrite lookup_insert_ne by done). by rewrite lookup_insert_eq.
    + do 1 (rewrite lookup_insert_ne by done). by rewrite lookup_insert_eq.
    + by rewrite lookup_insert_eq.
Qed.

(** ** Task names *)

Lemma processors_lookup_None (task_name : string) :
  processors !! task_name = None ↔ task_name ∉ task_names.
Proof.
  unfold processors, task_names.
  rewrite !lookup_insert_None, lookup_singleton_None.
  rewrite !not_elem_of_cons. split.
  - intros [[? ?] ?]. split_and!; try congruence. apply not_elem_of_nil.
  - intros (? & ? & ? & _). split_and!; congruence.
Qed.

(** X9. With the legacy-loader flag set, a task name other than "old",
    "new_clean" and "new" makes [load_and_cache_examples] raise KeyError on
    every file system, before any file is read; the task name that [main]
    selects is always one of the three. *)
Theorem load_unknown_task_name fs args tok ambiguity_fn task_name :
  old_load args = true →
  task_name ∉ task_names →
  load_and_cache_examples fs args tok ambiguity_fn task_name = Err KeyError
  ∧ ∀ args' : Args, select_task_name args' ∈ task_names.
Proof.
  intros Hold Hnot. split.
  - unfold load_and_cache_examples, dict_getitem. rewrite Hold.
    by rewrite (proj2 (processors_lookup_None task_name) Hnot).
  - intros args'. unfold select_task_name, task_names.
    destruct (contains "new_clean" _); [set_solver|].
    destruct (contains "new" _); set_solver.
Qed.

(** ** The count of correct rows *)

Lemma np_argmax_inv (out : list (list float)) (outputs : list nat) :
  np_argmax out = Ok outputs →
  Forall (λ row, row ≠ []) out ∧ outputs = argmax_total <$> out.
Proof.
  revert outputs. induction out as [|row out IH]; intros outputs.
  - by intros [= <-].
  - cbn [np_argmax]. destruct row as [|x row]; [done|]. cbn [argmax mbind result_bind].
    destruct (np_argmax out) as [rest|]; [|done]. cbn [mbind result_bind].
    intros [= <-]. destruct (IH rest eq_refl) as [Hrows ->].
    split; [by constructor | done].
Qed.

Lemma count_correct_bounds (out : list (list float)) (labels : tensor) :
  (0 ≤ count_correct out labels ≤ Z.of_nat (length labels))%Z.
Proof.
  unfold count_correct.
  pose proof (length_filter (λ p : list float * cell,
                 p.2 = Scalar (Z.of_nat (argmax_total p.1))) (zip out labels)) as Hle.
  rewrite length_zip_with in Hle. lia.
Qed.

Lemma np_sum_fmap {A} (P : A → Prop) `{!∀ x, Decision (P x)} (l : list A) :
  np_sum ((λ x, bool_decide (P x)) <$> l) = Z.of_nat (length (filter P l)).
Proof.
  unfold np_sum. f_equal. induction l as [|x l IH]; [done|].
  cbn [fmap list_fmap]. rewrite !filter_cons.
  destruct (decide (P x)) as [Hx|Hx].
  - rewrite (bool_decide_eq_true_2 _ Hx), decide_True by done. cbn. by rewrite IH.
  - rewrite (bool_decide_eq_false_2 _ Hx), decide_False by done. by rewrite IH.
Qed.

Lemma np_equal_inv (outputs : list nat) (labels : tensor) (hits : list bool) :
  np_equal outputs labels = Ok hits →
  (length outputs = length labels ∧
   hits = zip_with (λ o l, bool_decide (l = Scalar (Z.of_nat o))) outputs labels)
  ∨ (length outputs ≠ length labels ∧
     ∃ o, outputs = [o] ∧
          hits = (λ l, bool_decide (l = Scalar (Z.of_nat o))) <$> labels)
  ∨ (length outputs ≠ length labels ∧
     ∃ l, labels = [l] ∧
          hits = (λ o, bool_decide (l = Scalar (Z.of_nat o))) <$> outputs).
Proof.
  unfold np_equal. case_bool_decide as Hlen.
  - intros [= <-]. by left.
  - destruct outputs as [|o [|o2 outputs]].
    + destruct labels as [|l [|l2 labels]]; [done| |done].
      intros [= <-]. right; right. split; [done|]. by exists l.
    + intros [= <-]. right; left. split; [done|]. by exists o.
    + destruct labels as [|l [|l2 labels]]; [done| |done].
      intros [= <-]. right; right. split; [done|]. by exists l.
Qed.

(** X10. Whenever [accuracy] returns for a 1-D array of labels, no row of
    the logits is empty. With one row per label the number returned is the
    number of rows whose first largest logit sits at the index of the gold
    label. A side of length one is compared with every entry of the other
    side: a single row is counted once for every label equal to its class,
    a single label once for every row of that class. The number lies
    between 0 and the longer of the two lengths. *)
Theorem accuracy_returns (out : list (list float)) (labels : tensor) (c : Z) :
  Forall (λ l, ∃ z, l = Scalar z) labels →
  accuracy out labels = Ok c →
  Forall (λ row, row ≠ []) out ∧
  (length out = length labels → c = count_correct out labels) ∧
  (∀ row, out = [row] →
     c = Z.of_nat (length (filter (λ l, l = Scalar (Z.of_nat (argmax_total row)))
                                  labels))) ∧
  (∀ l, labels = [l] →
     c = Z.of_nat (length (filter (λ row, l = Scalar (Z.of_nat (argmax_total row)))
                                  out))) ∧
  (0 ≤ c ≤ Z.of_nat (max (length out) (length labels)))%Z.
Proof.
  intros _. unfold accuracy. intros Hacc.
  destruct (np_argmax out) as [outputs|] eqn:Hargmax; [|done].
  apply np_argmax_inv in Hargmax as [Hrows ->].
  cbn [mbind result_bind] in Hacc.
  destruct (np_equal (argmax_total <$> out) labels) as [hits|] eqn:Hhits; [|done].
  cbn [mbind result_bind] in Hacc. injection Hacc as <-.
  assert (∀ row, np_sum ((λ l, bool_decide (l = Scalar (Z.of_nat (argmax_total row))))
                           <$> labels)
                 = Z.of_nat (length (filter
                     (λ l, l = Scalar (Z.of_nat (argmax_total row))) labels)))
    as Hrow by (intros row; apply (np_sum_fmap _ labels)).
  assert (∀ l, np_sum ((λ o, bool_decide (l = Scalar (Z.of_nat o)))
                         <$> (argmax_total <$> out))
               = Z.of_nat (length (filter
                   (λ row, l = Scalar (Z.of_nat (argmax_total row))) out)))
    as Hlab.
  { intros l. rewrite <- list_fmap_compose.
    apply (np_sum_fmap (λ row, l = Scalar (Z.of_nat (argmax_total row))) out). }
  apply np_equal_inv in Hhits
    as [[Hlen ->]|[[Hlen (o & Ho & ->)]|[Hlen (l & -> & ->)]]];
    rewrite length_fmap in Hlen.
  - rewrite np_sum_count. pose proof (count_correct_bounds out labels).
    split_and!; [done|done| | |lia|lia].
    + intros row ->. destruct labels as [|l [|l2 labels]]; try done.
      rewrite <- Hrow. cbn [fmap list_fmap]. by rewrite <- np_sum_count.
    + intros l ->. destruct out as [|row [|row2 out]]; try done.
      rewrite <- Hlab. cbn [fmap list_fmap]. by rewrite <- np_sum_count.
  - destruct out as [|row [|row2 out]]; try done. injection Ho as <-.
    rewrite Hrow.
    pose proof (length_filter (λ l, l = Scalar (Z.of_nat (argmax_total row)))
                              labels).
    split_and!; [done|done| | |lia|lia].
    + by intros row' [= <-].
    + intros l ->. done.
  - rewrite Hlab.
    pose proof (length_filter (λ row, l = Scalar (Z.of_nat (argmax_total row)))
                              out).
    split_and!; [done|done| | |lia|lia].
    + intros row ->. done.
    + by intros l' [= <-].
Qed.

End FurtherEvaluationProperties.


(** ** The first maximum of a row *)

Section Argmax.
Context `{Collaborators}.
Hypothesis float_order : float_lt_strict_order.

Lemma argmax_from_spec (rest : list float) : ∀ (pre : list float) best besti,
  pre !! besti = Some best →
  (∀ j y, pre !! j = Some y → float_lt best y = false) →
  (∀ j y, j < besti → pre !! j = Some y → float_lt y best = true) →
  ∃ x, (pre ++ rest) !! argmax_from best besti (length pre) rest = Some x ∧
       (∀ j y, (pre ++ rest) !! j = Some y → float_lt x y = false) ∧
       (∀ j y, j < argmax_from best besti (length pre) rest →
               (pre ++ rest) !! j = Some y → float_lt y x = true).
Proof.
  destruct float_order as (Hirr & Htrans & Hcotrans).
  induction rest as [|x rest IH]; intros pre best besti Hbest Hmax Hfirst.
  - cbn [argmax_from]. rewrite app_nil_r. by exists best.
  - pose proof (lookup_lt_Some _ _ _ Hbest) as Hlt.
    cbn [argmax_from].
    replace (pre ++ x :: rest) with ((pre ++ [x]) ++ rest)
      by (by rewrite <- app_assoc).
    replace (S (length pre)) with (length (pre ++ [x]))
      by (rewrite length_app; cbn; lia).
    destruct (float_lt best x) eqn:Hbx.
    + apply IH.
      * by rewrite lookup_app_r, Nat.sub_diag.
      * intros j y Hj. destruct (decide (j < length pre)) as [Hjl|Hjl].
        -- rewrite lookup_app_l in Hj by done.
           destruct (float_lt x y) eqn:Hxy; [|done].
           pose proof (Hmax j y Hj) as Hby.
           by rewrite (Htrans _ _ _ Hbx Hxy) in Hby.
        -- rewrite lookup_app_r in Hj by lia.
           destruct (j - length pre) as [|m]; [|by destruct m].
           injection Hj as <-. apply Hirr.
      * intros j y Hjl Hj. rewrite lookup_app_l in Hj by done.
        destruct (Hcotrans _ y _ Hbx) as [Hby|Hyx]; [|done].
        pose proof (Hmax j y Hj) as Hby'. congruence.
    + apply IH.
      * by rewrite lookup_app_l.
      * intros j y Hj. destruct (decide (j < length pre)) as [Hjl|Hjl].
        -- rewrite lookup_app_l in Hj by done. by apply (Hmax j).
        -- rewrite lookup_app_r in Hj by lia.
           destruct (j - length pre) as [|m]; [|by destruct m].
           by injection Hj as <-.
      * intros j y Hjl Hj. rewrite lookup_app_l in Hj by lia.
        by apply (Hfirst j).
Qed.

(** X11. For logits compared by a strict order, the class that [argmax]
    returns for a row is an index of the row, no entry of the row is
    greater than the entry at that index, and every entry before it is
    smaller: it is the first maximum. *)
Theorem argmax_first_maximum (row : list float) (i : nat) :
  argmax row = Ok i →
  ∃ x, row !! i = Some x ∧
       (∀ j y, row !! j = Some y → float_lt x y = false) ∧
       (∀ j y, j < i → row !! j = Some y → float_lt y x = true).
Proof.
  destruct float_order as (Hirr & _ & _).
  destruct row as [|x row]; [done|]. cbn [argmax]. intros [= <-].
  apply (argmax_from_spec row [x] x 0).
  - done.
  - intros [|j] y; [|done]. intros [= <-]. apply Hirr.
  - intros j y Hj. lia.
Qed.

End Argmax.


(** ** The aggregates at the end of the loop *)

Section FurtherLoopProperties.
Context `{Collaborators}.

(** X12. A run over a loaded dataset of [n] rows whose fields fit the
    path, with a positive batch size [b] and a classifier that keeps its
    contract: the loop ends with the step counter at the number of batches,
    the integer quotient of [n + b - 1] by [b], and the example counter at
    [n]; the running count of correct rows lies between 0 and the example
    counter. With at least one row, the running count is what line 365
    computes from the full buffers and drops; with no row, the buffers are
    still [None] and the same computation on them raises AxisError (a
    run does not get that far: line 364 raises it first). *)
Theorem eval_loop_counters fs args model tok ambiguity_fn task_name dataset n :
  load_and_cache_examples fs args tok ambiguity_fn task_name = Ok dataset →
  (old_load args = true → contains "baseline_" (data_dir args) = true) →
  dataset_len dataset = Ok n →
  (0 < eval_batch_size args)%Z →
  model_ok model →
  ∃ st,
    eval_loop args model dataset = Ok st ∧
    nb_eval_steps st
    = Z.of_nat ((n + Z.to_nat (eval_batch_size args) - 1)
                  / Z.to_nat (eval_batch_size args)) ∧
    nb_eval_examples st = Z.of_nat n ∧
    (0 ≤ eval_accuracy st ≤ nb_eval_examples st)%Z ∧
    (0 < n →
     (out ← array_of (full_logits st);
      labels ← array_of (full_labels st);
      accuracy out labels) = Ok (eval_accuracy st)) ∧
    (n = 0 →
     (out ← array_of (full_logits st);
      labels ← array_of (full_labels st);
      accuracy out labels) = Err AxisError).
Proof.
  intros Hload Hfit Hlen Hb Hmodel.
  pose proof (load_batch_ok _ _ _ _ _ _ Hload Hfit) as Hok.
  pose proof (batch_ok_fields _ _ Hok) as Hfields.
  destruct (load_and_cache_examples_shape _ _ _ _ _ _ Hload) as [n' Hshape].
  assert (0 < if old_load args then 4 else 5) as Hpos by (destruct (old_load args); lia).
  assert (n = n') as <- by (by eapply dataset_len_rows).
  assert (0 < Z.to_nat (eval_batch_size args)) as Hbn by lia.
  destruct Hshape as [Hcount Hrows].
  set (b := Z.to_nat (eval_batch_size args)) in *.
  set (batches := batches_of dataset b n).
  assert (∀ j, j < length dataset → length (dataset !!! j) = n) as Hcol.
  { intros j Hj. destruct (lookup_lt_is_Some_2 dataset j Hj) as [t Ht].
    rewrite (list_lookup_total_correct _ _ _ Ht).
    by apply (Forall_lookup_1 _ _ _ _ Hrows Ht). }
  assert (concat ((λ batch : list tensor, batch !!! 3) <$> batches) = dataset !!! 3)
    as Hlabels by (apply concat_batches_field; [done|lia|done]).
  assert (concat ((λ batch : list tensor, batch !!! 0) <$> batches) = dataset !!! 0)
    as Hids by (apply concat_batches_field; [done|lia|done]).
  exists (state_after args model batches). split.
  { unfold eval_loop. erewrite DataLoader_batches by done.
    cbn [mbind result_bind].
    apply for_each_eval_step; [done | by apply batches_of_ok]. }
  cbn [state_after nb_eval_steps nb_eval_examples full_logits full_labels
       eval_accuracy].
  rewrite Hlabels, Hids.
  split; [unfold batches, batches_of, num_batches;
          by rewrite length_fmap, length_seq|].
  split; [by rewrite Hcol by lia|].
  split.
  { rewrite (Hcol 0) by lia. rewrite <- (Hcol 3) by lia.
    apply count_correct_bounds. }
  split.
  - intros Hn.
    assert (batches ≠ []) as Hne by (by apply batches_of_nonempty).
    rewrite !buffer_of_nonempty by (by destruct batches).
    cbn [array_of mbind result_bind]. rewrite Hlabels.
    apply accuracy_count; [|by apply run_logits_rows].
    by rewrite logits_labels_length, Hlabels.
  - intros ->. unfold batches, batches_of. by rewrite num_batches_zero.
Qed.

Lemma build_inputs_baseline_take args (batch : list tensor) :
  contains "baseline_" (data_dir args) = true →
  build_inputs args (take 4 batch) = build_inputs args batch.
Proof.
  intros Hbase. unfold build_inputs, getitem. rewrite Hbase.
  rewrite (lookup_take_lt batch 4 0), (lookup_take_lt batch 4 1),
    (lookup_take_lt batch 4 2), (lookup_take_lt batch 4 3) by lia.
  done.
Qed.

Lemma eval_step_baseline_take args model st (batch : list tensor) :
  contains "baseline_" (data_dir args) = true →
  eval_step args model st (take 4 batch) = eval_step args model st batch.
Proof. intros Hbase. unfold eval_step. by rewrite build_inputs_baseline_take. Qed.

Lemma for_each_fmap_ext {A B S} (body : S → B → result S) (f g : A → B) (xs : list A) :
  (∀ acc x, body acc (f x) = body acc (g x)) →
  ∀ acc, for_each body (f <$> xs) acc = for_each body (g <$> xs) acc.
Proof.
  intros Hfg. induction xs as [|x xs IH]; intros acc; [done|].
  cbn [fmap list_fmap for_each]. rewrite Hfg.
  destruct (body acc (g x)); [apply IH | done].
Qed.

(** X13. With a data directory whose path contains "baseline_", nothing
    beyond the first four tensors of the dataset reaches the loop: two
    datasets with the same first four tensors give the same outcome of the
    loop, aggregates or exception, for every classifier and batch size. *)
Theorem eval_loop_baseline_first_four args model (dataset dataset' : list tensor) :
  contains "baseline_" (data_dir args) = true →
  take 4 dataset = take 4 dataset' →
  eval_loop args model dataset = eval_loop args model dataset'.
Proof.
  intros Hbase Htake. unfold eval_loop, DataLoader, dataset_len, getitem.
  assert (dataset !! 0 = dataset' !! 0) as <-.
  { rewrite <- (lookup_take_lt dataset 4 0), <- (lookup_take_lt dataset' 4 0) by lia.
    by rewrite Htake. }
  destruct (dataset !! 0) as [t0|]; [|done]. cbn [mbind result_bind].
  destruct (bool_decide (eval_batch_size args ≤ 0)%Z); [done|].
  cbn [mbind result_bind]. apply for_each_fmap_ext. intros acc k.
  rewrite <- (eval_step_baseline_take args model acc (_ <$> dataset)) by done.
  rewrite <- (eval_step_baseline_take args model acc (_ <$> dataset')) by done.
  by rewrite <- !fmap_take, Htake.
Qed.

(** X14. A run as in X12 over at least one row, with a classifier that
    scores every row on its own: the F1 returned is that of the gold labels
    against the argmax of the logits of the dataset taken at once, the same
    for every positive batch size. *)
Theorem evaluate_f1_batch_size fs args model tok ambiguity_fn task_name dataset n :
  load_and_cache_examples fs args tok ambiguity_fn task_name = Ok dataset →
  (old_load args = true → contains "baseline_" (data_dir args) = true) →
  dataset_len dataset = Ok n → 0 < n →
  model_ok model → batch_invariant model →
  ∀ b, (0 < b)%Z →
    returned_f1
      (evaluate fs (set_eval_batch_size args b) model tok ambiguity_fn task_name)
    = Some (f1_score (dataset !!! 3)
              (argmax_total <$> (model (inputs_of args dataset)).2)).
Proof.
  intros Hload Hfit Hlen Hn Hmodel Hinv b Hb.
  pose proof (load_batch_ok _ _ _ _ _ _ Hload Hfit) as Hok.
  pose proof (batch_ok_fields _ _ Hok) as Hfields.
  destruct (load_and_cache_examples_shape _ _ _ _ _ _ Hload) as [n' Hshape].
  assert (0 < if old_load args then 4 else 5) as Hpos by (destruct (old_load args); lia).
  assert (n = n') as <- by (by eapply dataset_len_rows).
  erewrite (evaluate_run fs (set_eval_batch_size args b)); [|done..].
  cbn [returned_f1 eval_batch_size set_eval_batch_size].
  change (batch_logits (set_eval_batch_size args b) model)
    with (batch_logits args model).
  rewrite (run_logits_batch_invariant args model dataset (Z.to_nat b) n);
    [done..|lia|].
  destruct Hshape as [_ Hrows].
  destruct (lookup_lt_is_Some_2 dataset 3 ltac:(lia)) as [t Ht].
  rewrite (list_lookup_total_correct _ _ _ Ht).
  by apply (Forall_lookup_1 _ _ _ _ Hrows Ht).
Qed.

End FurtherLoopProperties.


(** ** The list of weight files *)

Lemma split_on_nonempty (sep : Ascii.ascii) (s : string) : split_on sep s ≠ [].
Proof.
  induction s as [|c s IH]; cbn [split_on]; [done|].
  destruct (Ascii.eqb c sep); [done|]. by destruct (split_on sep s).
Qed.

Lemma concat_cons (sep x y : string) (ys : list string) :
  String.concat sep (x :: y :: ys) = x +:+ sep +:+ String.concat sep (y :: ys).
Proof. reflexivity. Qed.

Lemma concat_String_cons (sep : string) (c : Ascii.ascii) (part : string)
    (parts : list string) :
  String.concat sep (String c part :: parts)
  = String c (String.concat sep (part :: parts)).
Proof. by destruct parts. Qed.

Lemma contains_comma_cons (c : Ascii.ascii) (s : string) :
  contains "," (String c s) = Ascii.eqb c comma || contains "," s.
Proof.
  rewrite contains_unfold. cbn [String.prefix]. f_equal.
  destruct (Ascii.ascii_dec _ c) as [<-|Hne].
  - by destruct s.
  - symmetry. apply Ascii.eqb_neq. intros ->. by apply Hne.
Qed.

(** X15. The weight files of a run are the parts of model_weights between
    the commas: there is at least one part, no part contains a comma, and
    the parts joined by commas give model_weights back. *)
Theorem split_on_comma_join (s : string) :
  split_on comma s ≠ [] ∧
  Forall (λ part, contains "," part = false) (split_on comma s) ∧
  String.concat "," (split_on comma s) = s.
Proof.
  split; [apply split_on_nonempty|].
  induction s as [|c s [IHparts IHjoin]]; cbn [split_on].
  - split; [by repeat constructor | done].
  - pose proof (split_on_nonempty comma s) as Hne.
    destruct (Ascii.eqb c comma) eqn:Hc.
    + apply Ascii.eqb_eq in Hc as ->. split; [by constructor|].
      destruct (split_on comma s) as [|part parts]; [done|].
      by rewrite concat_cons, IHjoin.
    + destruct (split_on comma s) as [|part parts]; [done|].
      apply Forall_cons in IHparts as [Hpart Hparts]. split.
      * constructor; [|done]. by rewrite contains_comma_cons, Hc, Hpart.
      * by rewrite concat_String_cons, IHjoin.
Qed.

(** X16. Conversely, the parts of a list of weight files joined by commas
    are the files of the list, when the list is not empty and no file name
    contains a comma. *)
Theorem split_on_comma_of_join (parts : list string) :
  parts ≠ [] →
  Forall (λ part, contains "," part = false) parts →
  split_on comma (String.concat "," parts) = parts.
Proof.
  intros Hne Hparts. induction parts as [|part parts IH]; [done|]. clear Hne.
  apply Forall_cons in Hparts as [Hpart Hparts].
  destruct parts as [|part' parts].
  - clear IH Hparts. cbn [String.concat].
    induction part as [|c part IHc]; [done|].
    rewrite contains_comma_cons in Hpart. apply orb_false_iff in Hpart as [Hc Hpart].
    cbn [split_on]. by rewrite Hc, IHc.
  - rewrite concat_cons. specialize (IH ltac:(done) Hparts).
    induction part as [|c part IHc].
    + change ("" +:+ "," +:+ String.concat "," (part' :: parts))
        with (String comma (String.concat "," (part' :: parts))).
      cbn [split_on]. rewrite (proj2 (Ascii.eqb_eq _ _) eq_refl). by rewrite IH.
    + rewrite contains_comma_cons in Hpart.
      apply orb_false_iff in Hpart as [Hc Hpart].
      change (String c part +:+ "," +:+ String.concat "," (part' :: parts))
        with (String c (part +:+ "," +:+ String.concat "," (part' :: parts))).
      cbn [split_on]. by rewrite Hc, IHc.
Qed.

Lemma split_on_comma_of_join_witness :
  split_on comma (String.concat "," ["m/a_wn_1.pt"; "m/b_csi_2.pt"])
  = ["m/a_wn_1.pt"; "m/b_csi_2.pt"].
Proof.
  apply (split_on_comma_of_join ["m/a_wn_1.pt"; "m/b_csi_2.pt"]).
  - discriminate.
  - repeat constructor.
Defined.

(** ** One selection for all weight files *)

Lemma prefix_app_true (sub s t : string) :
  String.prefix sub s = true → String.prefix sub (s +:+ t) = true.
Proof.
  revert s. induction sub as [|c sub IH]; intros s;
    [intros _; by destruct (s +:+ t)|].
  destruct s as [|c' s]; [done|].
  change (String c' s +:+ t) with (String c' (s +:+ t)). cbn [String.prefix].
  destruct (Ascii.ascii_dec c c'); [apply IH | done].
Qed.

Lemma contains_app_l (sub s t : string) :
  contains sub s = true → contains sub (s +:+ t) = true.
Proof.
  induction s as [|c s IH]; rewrite (contains_unfold sub), (contains_unfold sub (_ +:+ _));
    intros [Hp|Hc]%orb_true_iff; apply orb_true_iff.
  - left. by apply (prefix_app_true sub "" t).
  - done.
  - left. by apply (prefix_app_true sub (String c s) t).
  - right. by apply IH.
Qed.

Lemma contains_app_r (sub s t : string) :
  contains sub t = true → contains sub (s +:+ t) = true.
Proof.
  intros Ht. induction s as [|c s IH]; [done|].
  change (String c s +:+ t) with (String c (s +:+ t)).
  rewrite contains_unfold. apply orb_true_iff. by right.
Qed.

Lemma contains_concat (sub sep : string) (parts : list string) (part : string) :
  part ∈ parts → contains sub part = true →
  contains sub (String.concat sep parts) = true.
Proof.
  intros Hin Hpart. induction parts as [|x parts IH]; [by apply elem_of_nil in Hin|].
  destruct parts as [|y parts].
  - apply list_elem_of_singleton in Hin as ->. done.
  - rewrite concat_cons. apply elem_of_cons in Hin as [->|Hin].
    + by apply contains_app_l.
    + apply contains_app_r, contains_app_r. by apply IH.
Qed.

(** X17. The ambiguity function and the task variant are chosen once, from
    the whole of model_weights, for all the weight files of a run: as soon
    as one of the files has "_csi_" in its path the ambiguity function is
    "csi", and as soon as one of them has "new_clean" in its path the task
    variant is "new_clean", also for the other files. *)
Theorem selection_from_any_weight_file (args : Args) (part : string) :
  part ∈ split_on comma (model_weights args) →
  (contains "_csi_" part = true → select_ambiguity_fn args = "csi")
  ∧ (contains "new_clean" part = true → select_task_name args = "new_clean").
Proof.
  intros Hin.
  destruct (split_on_comma_join (model_weights args)) as (_ & _ & Hjoin).
  assert (∀ sub, contains sub part = true →
                 contains sub (model_weights args) = true) as Hsub.
  { intros sub Hpart. rewrite <- Hjoin. by eapply contains_concat. }
  unfold select_ambiguity_fn, select_task_name. split; intros Hpart.
  - by rewrite (Hsub _ Hpart).
  - by rewrite (Hsub _ Hpart).
Qed.

Lemma selection_from_any_weight_file_witness :
  (contains "_csi_" "m/b_csi_2.pt" = true →
   select_ambiguity_fn
     (mkArgs "data/amb" "bert-base-uncased" 8 2 false false false
             "m/a_wn_1.pt,m/b_csi_2.pt") = "csi")
  ∧ (contains "new_clean" "m/b_csi_2.pt" = true →
     select_task_name
       (mkArgs "data/amb" "bert-base-uncased" 8 2 false false false
               "m/a_wn_1.pt,m/b_csi_2.pt") = "new_clean").
Proof.
  apply (selection_from_any_weight_file
           (mkArgs "data/amb" "bert-base-uncased" 8 2 false false false
                   "m/a_wn_1.pt,m/b_csi_2.pt") "m/b_csi_2.pt").
  vm_compute. apply list_elem_of_further, list_elem_of_here.
Defined.


(** ** What [main] prints *)

Section MainProperties.
Context `{Torch}.

Lemma main_step_cases fs args tok ambiguity_fn task_name model weights_path out :
  (∃ e, main_step fs args tok ambiguity_fn task_name model weights_path out
        = (out, Err e))
  ∨ (∃ e, main_step fs args tok ambiguity_fn task_name model weights_path out
          = (out ++ [EvaluatingModel weights_path], Err e))
  ∨ (∃ model' l a f,
       main_step fs args tok ambiguity_fn task_name model weights_path out
       = (out ++ [EvaluatingModel weights_path; LossLine l; AccuracyLine a; F1Line f],
          Ok model')).
Proof.
  unfold main_step, io_bind, lift, print, io_ret.
  destruct (torch_load fs weights_path) as [sd|e]; [|left; by exists e].
  destruct (load_state_dict model sd) as [model'|e]; [|left; by exists e].
  destruct (evaluate fs args (forward model') tok ambiguity_fn task_name)
    as [[[l a] f]|e]; [|right; left; by exists e].
  right; right. exists model', l, a, f. by rewrite <- !app_assoc.
Qed.

Lemma announced_block weights_path l a f (new : list line) :
  announced ([EvaluatingModel weights_path; LossLine l; AccuracyLine a; F1Line f]
             ++ new)
  = weights_path :: announced new.
Proof. reflexivity. Qed.

Lemma io_for_each_cons {A S} (body : S → A → io S) x xs acc out :
  io_for_each body (x :: xs) acc out
  = match body acc x out with
    | (out', Ok a) => io_for_each body xs a out'
    | (out', Err e) => (out', Err e)
    end.
Proof. reflexivity. Qed.

Lemma main_loop_announces fs args tok ambiguity_fn task_name (paths : list string) :
  ∀ model out,
    ∃ new,
      (io_for_each (main_step fs args tok ambiguity_fn task_name) paths model out).1
      = out ++ new ∧
      announced new `prefix_of` paths ∧
      (∀ model',
         (io_for_each (main_step fs args tok ambiguity_fn task_name) paths model out).2
         = Ok model' →
         announced new = paths ∧ length new = 4 * length paths) ∧
      (∀ e,
         (io_for_each (main_step fs args tok ambiguity_fn task_name) paths model out).2
         = Err e →
         0 < length paths ∧ length new < 4 * length paths).
Proof.
  induction paths as [|p paths IH]; intros model out.
  - exists []. cbn. rewrite app_nil_r. split_and!; try done.
  - rewrite io_for_each_cons.
    destruct (main_step_cases fs args tok ambiguity_fn task_name model p out)
      as [[e ->]|[[e ->]|(model' & l & a & f & ->)]].
    + exists []. cbn. rewrite app_nil_r. split_and!; try done.
      * apply prefix_nil.
      * intros _ _. cbn [length]. lia.
    + exists [EvaluatingModel p]. cbn. split_and!; try done.
      * by apply prefix_cons, prefix_nil.
      * intros _ _. cbn [length]. lia.
    + destruct (IH model'
                  (out ++ [EvaluatingModel p; LossLine l; AccuracyLine a; F1Line f]))
        as (new & Hout & Hprefix & Hok & Herr).
      exists ([EvaluatingModel p; LossLine l; AccuracyLine a; F1Line f] ++ new).
      split_and!.
      * by rewrite Hout, <- app_assoc.
      * rewrite announced_block. by apply prefix_cons.
      * intros m Hm. destruct (Hok m Hm) as [Ha Hl].
        rewrite announced_block, Ha. cbn [length app]. rewrite Hl.
        split; [done|lia].
      * intros e He. destruct (Herr e He) as [_ Hl]. cbn [length app]. lia.
Qed.

Lemma main_unfold (fs : filesystem) (cl : CommandLine) (out : list line) :
  main fs cl out
  = match BertTokenizer_from_pretrained (bert_model (cl_args cl)) (do_lower_case cl) with
    | Err e => (out, Err e)
    | Ok tok =>
        match (if bert_base (cl_args cl)
               then BertForSequenceClassification_from_pretrained
                      (bert_model (cl_args cl)) 2
               else HumorDetectionModel 768
                      (negb (String.eqb (select_ambiguity_fn (cl_args cl)) "none")))
        with
        | Err e => (out, Err e)
        | Ok model =>
            match io_for_each
                    (main_step fs (cl_args cl) tok (select_ambiguity_fn (cl_args cl))
                               (select_task_name (cl_args cl)))
                    (split_on comma (model_weights (cl_args cl))) model out
            with
            | (out', Ok _) => (out', Ok tt)
            | (out', Err e) => (out', Err e)
            end
        end
    end.
Proof.
  unfold main, io_bind, lift, io_ret.
  destruct (BertTokenizer_from_pretrained _ _); [|done].
  destruct (if bert_base (cl_args cl) then _ else _); [|done].
  by destruct (io_for_each _ _ _ _) as [out' [?|?]].
Qed.

(** X18. Whatever the collaborators do, [main] announces the weight files
    in the order of model_weights and skips none: the announced files are a
    prefix of the comma-separated list. When [main] ends normally, every
    file of the list was announced and exactly four lines were printed per
    file (the announcement, the loss, the accuracy, the F1). When it ends
    with an exception, fewer lines than that were printed: the run stops at
    the first file that fails. *)
Theorem main_announces_in_order (fs : filesystem) (cl : CommandLine) :
  announced (main fs cl []).1 `prefix_of` split_on comma (model_weights (cl_args cl))
  ∧ ((main fs cl []).2 = Ok tt →
     announced (main fs cl []).1 = split_on comma (model_weights (cl_args cl)) ∧
     length (main fs cl []).1
     = 4 * length (split_on comma (model_weights (cl_args cl))))
  ∧ (∀ e, (main fs cl []).2 = Err e →
       length (main fs cl []).1
       < 4 * length (split_on comma (model_weights (cl_args cl)))).
Proof.
  pose proof (split_on_nonempty comma (model_weights (cl_args cl))) as Hne.
  assert (0 < length (split_on comma (model_weights (cl_args cl)))) as Hpos
    by (destruct (split_on comma _); [done | cbn; lia]).
  rewrite !main_unfold.
  destruct (BertTokenizer_from_pretrained _ _) as [tok|e0].
  2: { cbn. split_and!; [apply prefix_nil | done | intros; lia]. }
  destruct (if bert_base (cl_args cl) then _ else _) as [model|e1].
  2: { cbn. split_and!; [apply prefix_nil | done | intros; lia]. }
  destruct (main_loop_announces fs (cl_args cl) tok
              (select_ambiguity_fn (cl_args cl)) (select_task_name (cl_args cl))
              (split_on comma (model_weights (cl_args cl))) model [])
    as (new & Hout & Hprefix & Hok & Herr).
  destruct (io_for_each _ _ _ _) as [out [m|e]] eqn:Hloop;
    cbn [fst snd] in *; cbn in Hout; subst out.
  - split_and!; [done | intros _; by apply (Hok m eq_refl) | done].
  - split_and!; [done | done | intros e' _; by apply (Herr e eq_refl)].
Qed.

End MainProperties.


(** * The further properties on the concrete instances *)

Lemma extended_batch_inputs_witness :
  ∃ inputs,
    build_inputs Test.args_extended (batch_slice 2 1 <$> TestMain.dataset) = Ok inputs ∧
    inputs !! "input_ids"
    = Some (Vector <$> (f_input_ids <$> batch_slice 2 1 TestMain.features)) ∧
    inputs !! "attention_mask"
    = Some (Vector <$> (f_input_mask <$> batch_slice 2 1 TestMain.features)) ∧
    inputs !! "token_type_ids"
    = Some (Vector <$> (f_segment_ids <$> batch_slice 2 1 TestMain.features)) ∧
    inputs !! "labels"
    = Some (Scalar <$> (f_label_id <$> batch_slice 2 1 TestMain.features)) ∧
    inputs !! "ambiguity_scores"
    = Some (Scalar <$> (f_ambiguity <$> batch_slice 2 1 TestMain.features)).
Proof.
  apply (extended_batch_inputs Test.args_extended
           TestMain.features TestMain.dataset 2 1).
  - vm_compute. reflexivity.
  - vm_compute. reflexivity.
Defined.

Example ex_extended_last_batch :
  batch_slice 2 1 TestMain.features
  = [mkAmbiguityFeatures [101; 4; 102]%Z [1; 1; 1]%Z [0; 0; 0]%Z 3 1].
Proof. reflexivity. Qed.

Lemma load_unknown_task_name_witness :
  load_and_cache_examples Test.fs Test.args_legacy Test.tok "wn" "sst2" = Err KeyError
  ∧ ∀ args' : Args, select_task_name args' ∈ task_names.
Proof.
  apply (@load_unknown_task_name Test.collaborators
           Test.fs Test.args_legacy Test.tok "wn" "sst2").
  - reflexivity.
  - unfold task_names. rewrite !not_elem_of_cons.
    split_and!; try discriminate. apply not_elem_of_nil.
Defined.

Lemma accuracy_returns_witness :
  accuracy [[inject_Z 0; inject_Z 1]] [Scalar 1; Scalar 1; Scalar 1] = Ok 3%Z
  ∧ 3%Z = Z.of_nat (length (filter
            (λ l, l = Scalar (Z.of_nat (argmax_total [inject_Z 0; inject_Z 1])))
            [Scalar 1; Scalar 1; Scalar 1])).
Proof.
  split; [vm_compute; reflexivity|].
  refine (proj1 (proj2 (proj2
            (@accuracy_returns Test.collaborators
               [[inject_Z 0; inject_Z 1]] [Scalar 1; Scalar 1; Scalar 1] 3%Z _ _)))
            [inject_Z 0; inject_Z 1] eq_refl).
  - repeat constructor; by eexists.
  - vm_compute. reflexivity.
Defined.

Lemma test_float_lt_iff (x y : Q) : negb (Qle_bool y x) = true ↔ (x < y)%Q.
Proof.
  rewrite negb_true_iff. split.
  - intros Hf. apply Qnot_le_lt. intros Hle%Qle_bool_iff. congruence.
  - intros Hlt. destruct (Qle_bool y x) eqn:Hle; [|done].
    apply Qle_bool_iff in Hle. by apply Qlt_not_le in Hlt.
Qed.

Lemma test_float_lt_order : @float_lt_strict_order Test.collaborators.
Proof.
  unfold float_lt_strict_order. cbn. split_and!.
  - intros x. apply negb_false_iff, Qle_bool_iff, Qle_refl.
  - intros x y z. rewrite !test_float_lt_iff. apply Qlt_trans.
  - intros x y z. rewrite !test_float_lt_iff. intros Hxz.
    destruct (Qlt_le_dec x y) as [Hxy|Hyx]; [by left|].
    right. by eapply Qle_lt_trans.
Qed.

Lemma argmax_first_maximum_witness :
  ∃ x, [inject_Z 1; inject_Z 3; inject_Z 3; inject_Z 2] !! 1 = Some x ∧
       (∀ j y, [inject_Z 1; inject_Z 3; inject_Z 3; inject_Z 2] !! j = Some y →
               float_lt x y = false) ∧
       (∀ j y, j < 1 →
               [inject_Z 1; inject_Z 3; inject_Z 3; inject_Z 2] !! j = Some y →
               float_lt y x = true).
Proof.
  apply (@argmax_first_maximum Test.collaborators test_float_lt_order
           [inject_Z 1; inject_Z 3; inject_Z 3; inject_Z 2] 1).
  vm_compute. reflexivity.
Defined.

Lemma eval_loop_counters_witness :
  ∃ st,
    eval_loop Test.args_baseline Test.model (Test.dataset_of Test.args_baseline)
    = Ok st ∧
    nb_eval_steps st = 2%Z ∧
    nb_eval_examples st = 3%Z ∧
    eval_accuracy st = 2%Z ∧
    (out ← array_of (full_logits st);
     labels ← array_of (full_labels st);
     accuracy out labels) = Ok 2%Z.
Proof.
  destruct (eval_loop_counters Test.fs Test.args_baseline Test.model Test.tok
              "none" "old" (Test.dataset_of Test.args_baseline) 3)
    as (st & Hloop & Hsteps & Hexamples & _ & Hfull & _).
  - vm_compute. reflexivity.
  - intros _. vm_compute. reflexivity.
  - vm_compute. reflexivity.
  - vm_compute. reflexivity.
  - apply test_model_keeps_contract.
  - exists st.
    assert (eval_accuracy st = 2%Z) as Hacc.
    { assert (eval_loop Test.args_baseline Test.model
                        (Test.dataset_of Test.args_baseline)
              = Ok (mkAggregates (inject_Z 0 + inject_Z 2 + inject_Z 1)%Q 2 2 3
                      (Some [[inject_Z 0; inject_Z 1]; [inject_Z 0; inject_Z 1];
                             [inject_Z 0; inject_Z 1]])
                      (Some [Scalar 1; Scalar 0; Scalar 1]))) as Hrun
        by (vm_cast_no_check
              (eq_refl (eval_loop Test.args_baseline Test.model
                          (Test.dataset_of Test.args_baseline)))).
      rewrite Hrun in Hloop. by injection Hloop as <-. }
    split_and!; [done|done|done|done|].
    rewrite <- Hacc. apply Hfull. lia.
Defined.

Lemma eval_loop_baseline_first_four_witness :
  eval_loop Test.args_baseline Test.model (Test.dataset_of Test.args_extended)
  = eval_loop Test.args_baseline Test.model
              (take 4 (Test.dataset_of Test.args_extended)).
Proof.
  apply (@eval_loop_baseline_first_four Test.collaborators).
  - vm_compute. reflexivity.
  - vm_compute. reflexivity.
Defined.

Lemma evaluate_f1_batch_size_witness :
  returned_f1
    (evaluate Test.fs (set_eval_batch_size Test.args_extended 2) Test.model
              Test.tok "wn" "new_clean")
  = Some (f1_score (Test.dataset_of Test.args_extended !!! 3)
            (argmax_total
               <$> (Test.model (inputs_of Test.args_extended
                                  (Test.dataset_of Test.args_extended))).2))
  ∧ returned_f1
      (evaluate Test.fs (set_eval_batch_size Test.args_extended 2) Test.model
                Test.tok "wn" "new_clean")
    = Some (4 # 5)%Q.
Proof.
  split.
  - apply (evaluate_f1_batch_size Test.fs Test.args_extended Test.model Test.tok
             "wn" "new_clean" (Test.dataset_of Test.args_extended) 3).
    + vm_compute. reflexivity.
    + vm_compute. discriminate.
    + vm_compute. reflexivity.
    + lia.
    + apply test_model_keeps_contract.
    + apply test_model_batch_invariant.
    + lia.
  - vm_compute. reflexivity.
Defined.

(** The loss, unlike the accuracy and the F1, depends on the batch size. *)
Example ex_loss_depends_on_batch_size :
  evaluate Test.fs (set_eval_batch_size Test.args_extended 2) Test.model Test.tok
           "wn" "new_clean"
  = Ok (((inject_Z 0 + inject_Z 2 + inject_Z 1) / inject_Z 2)%Q,
        (inject_Z 2 / inject_Z 3)%Q, (inject_Z 4 / inject_Z 5)%Q)
  ∧ evaluate Test.fs (set_eval_batch_size Test.args_extended 3) Test.model Test.tok
             "wn" "new_clean"
    = Ok (((inject_Z 0 + inject_Z 3) / inject_Z 1)%Q,
          (inject_Z 2 / inject_Z 3)%Q, (inject_Z 4 / inject_Z 5)%Q).
Proof. by vm_compute. Qed.

#[local] Existing Instance TestMain.torch.

(** Two weight files, the second missing: the first is evaluated and
    reported, the second is never announced. *)
Example ex_main_second_file_missing :
  main TestMain.fs (TestMain.command_line "m/a_wn_1.pt,m/missing.pt") []
  = ([EvaluatingModel "m/a_wn_1.pt";
      LossLine ((inject_Z 0 + inject_Z 2 + inject_Z 1) / inject_Z 2)%Q;
      AccuracyLine (inject_Z 2 / inject_Z 3)%Q;
      F1Line (inject_Z 4 / inject_Z 5)%Q],
     Err FileNotFoundError).
Proof.
  vm_cast_no_check
    (eq_refl (main TestMain.fs (TestMain.command_line "m/a_wn_1.pt,m/missing.pt") [])).
Qed.

Example ex_main_two_files :
  announced (main TestMain.fs (TestMain.command_line "m/a_wn_1.pt,m/b_csi_2.pt") []).1
  = ["m/a_wn_1.pt"; "m/b_csi_2.pt"]
  ∧ (main TestMain.fs (TestMain.command_line "m/a_wn_1.pt,m/b_csi_2.pt") []).2 = Ok tt.
Proof.
  split.
  - vm_cast_no_check (eq_refl ["m/a_wn_1.pt"; "m/b_csi_2.pt"]).
  - vm_cast_no_check (eq_refl (Ok tt : result unit)).
Qed.

Example ex_split_on :
  split_on comma "" = [""]
  ∧ split_on comma "a,,b," = ["a"; ""; "b"; ""].
Proof. by vm_compute. Qed.

Example ex_mnli_empty_file :
  MnliProcessor._create_examples [] "train" = Ok []
  ∧ MnliProcessor._create_examples [[]] "train" = Ok [].
Proof. by vm_compute. Qed.
